(** * stlcut: cutting a triangle mesh by a plane

    A shallow embedding of [stlcut.cpp].  The C++ program computes on
    [float] and [double].  Here every coordinate is a real number: a
    finite value a [float] can hold is one, the comparisons of the
    program ([==], [<]) are then those of the reals, and the arithmetic
    ([+], [*], [/], [sqrt]) is exact, without the rounding of the
    machine.  What is stated on the answers of the classification, on
    the order of the containers and on comparisons holds of the program
    as it is, for finite coordinates; what is stated on computed
    coordinates is a statement of exact arithmetic and says so.  The
    classification [stl_plane::position] is also given as the machine
    computes it, in binary64, NaN and the infinities included
    ([position_double]).  A division whose divisor is zero (a NaN or an
    infinity in the program) is written with the total division of [R];
    no lemma below relies on the value of the reciprocal of zero.

    Containers: a [std::deque] is a list, [push_back] appends at the
    end; the [std::set<stl_vertex_pair>] is a list kept in the order
    of [operator<], without equivalent elements. *)

From Stdlib Require Import Reals.Reals Lra Lia List Bool Arith Sorted Permutation.
From Stdlib Require Floats QArith.
Import ListNotations.

Open Scope R_scope.

(** ** Comparisons of the program as booleans *)

Definition feq (r s : R) : bool := if Req_dec_T r s then true else false.
Definition flt (r s : R) : bool := if Rlt_dec r s then true else false.

(** [admesh/stl.h]: [#define ABS(X) ((X) < 0 ? -(X) : (X))] *)
Definition ABS (r : R) : R := if flt r 0 then - r else r.

(** [admesh/stl.h]: [#define STL_MIN(A,B) ((A)<(B)? (A):(B))] *)
Definition STL_MIN (r s : R) : R := if flt r s then r else s.

(** ** Data model *)

(** [enum stl_position { above, on, below }] *)
Inductive stl_position : Type := above | on | below.

Definition stl_position_eqb (p q : stl_position) : bool :=
  match p, q with
  | above, above | on, on | below, below => true
  | _, _ => false
  end.

(** [stl_vertex] of admesh: three coordinates. *)
Record stl_vertex : Type := mk_vertex { vx : R; vy : R; vz : R }.

(** [typedef stl_vertex stl_vector] *)
Definition stl_vector : Type := stl_vertex.

(** [stl_facet] of admesh: a normal, three vertices in winding order
    and two attribute bytes the program copies and never reads. *)
Record stl_facet : Type := mk_facet {
  normal : stl_vector;
  vertex0 : stl_vertex;
  vertex1 : stl_vertex;
  vertex2 : stl_vertex;
  extra : nat * nat
}.

(** [facet.vertex[i]] for an index already reduced modulo 3. *)
Definition vertex (f : stl_facet) (i : nat) : stl_vertex :=
  match i with
  | O => vertex0 f
  | S O => vertex1 f
  | _ => vertex2 f
  end.

(** [normalize], in exact arithmetic: the program rounds the length to
    [double] and each quotient to [float], and divides 0 by 0 (NaN) for
    the zero vector. *)
Definition normalize (v : stl_vector) : stl_vector :=
  let size := sqrt (vx v * vx v + vy v * vy v + vz v * vz v) in
  mk_vertex (vx v / size) (vy v / size) (vz v / size).

(** [dot], in exact arithmetic: the program rounds to [float]. *)
Definition dot (a b : stl_vector) : R :=
  vx a * vx b + vy a * vy b + vz a * vz b.

(** [struct stl_plane]: the equation [x*X + y*Y + z*Z + d = 0] and the
    basis [a], [b] saved by the constructor. *)
Record stl_plane : Type := mk_plane {
  px : R; py : R; pz : R; pd : R;
  pa : stl_vector;
  pb : stl_vector
}.

(** The last branch of the constructor: [a] from [(y,-x,0)], [b] from
    [(0,z,-y)] with its component along [a] removed. *)
Definition basis_a (x y : R) : stl_vector := normalize (mk_vertex y (- x) 0).

Definition basis_b_raw (x y z : R) : stl_vector :=
  let a := basis_a x y in
  let b := mk_vertex 0 z (- y) in
  let r := dot a b in
  mk_vertex (vx b - vx a * r) (vy b - vy a * r) (vz b - vz a * r).

(** [stl_plane::stl_plane(x, y, z, d)] *)
Definition new_plane (x y z d : R) : stl_plane :=
  if feq x 0 && feq y 0 then
    mk_plane x y z d (mk_vertex 1 0 0) (mk_vertex 0 1 0)
  else if feq y 0 && feq z 0 then
    mk_plane x y z d (mk_vertex 0 1 0) (mk_vertex 0 0 1)
  else if feq x 0 && feq z 0 then
    mk_plane x y z d (mk_vertex 1 0 0) (mk_vertex 0 0 1)
  else
    mk_plane x y z d (basis_a x y) (normalize (basis_b_raw x y z)).

(** The plane's normal as a vector. *)
Definition plane_normal (p : stl_plane) : stl_vector :=
  mk_vertex (px p) (py p) (pz p).

(** [stl_plane::position] in exact arithmetic: the value the function
    would test without rounding, and the test.  What the program
    computes, in [double], is [position_double] below; the facet
    splitter is stated on the answers of the classification, whatever
    the arithmetic behind them. *)
Definition position_value (p : stl_plane) (v : stl_vertex) : R :=
  px p * vx v + py p * vy v + pz p * vz v + pd p.

Definition position (p : stl_plane) (v : stl_vertex) : stl_position :=
  let result := position_value p v in
  if flt 0 result then above
  else if flt result 0 then below
  else on.

(** [stl_plane::intersection], in exact arithmetic: the program rounds
    [t] and each coordinate to [float]. *)
Definition intersection (p : stl_plane) (a b : stl_vertex) : stl_vertex :=
  let ab := mk_vertex (vx b - vx a) (vy b - vy a) (vz b - vz a) in
  let t := - (vx a * px p + vy a * py p + vz a * pz p + pd p)
           / (vx ab * px p + vy ab * py p + vz ab * pz p) in
  mk_vertex (vx a + vx ab * t) (vy a + vy ab * t) (vz a + vz ab * t).

(** [stl_plane::to_2D], in exact arithmetic: the program rounds to
    [float]. *)
Definition to_2D (p : stl_plane) (v origin : stl_vertex) : stl_vertex :=
  let ov := mk_vertex (vx v - vx origin) (vy v - vy origin) (vz v - vz origin) in
  mk_vertex (dot (pa p) ov) (dot (pb p) ov) 0.

(** [stl_plane::to_3D], in exact arithmetic: the program rounds to
    [float]. *)
Definition to_3D (p : stl_plane) (v origin : stl_vertex) : stl_vertex :=
  mk_vertex (vx origin + vx (pa p) * vx v + vx (pb p) * vy v)
            (vy origin + vy (pa p) * vx v + vy (pb p) * vy v)
            (vz origin + vz (pa p) * vx v + vz (pb p) * vy v).

(** ** The classification as the machine computes it *)

Section DoublePrecision.

Import PrimFloat.

(** [stl_plane::position] computes in [double]: its operands are the
    [float] members of the plane and of the vertex, converted to
    [double], which changes no value, and every product and every sum
    is rounded to binary64 (to nearest, ties to even, no fused
    operation).  Here the operands are binary64 numbers, those that are
    [float] values among them; the infinities and NaN are values like
    the others. *)
Record double_vertex : Type :=
  mk_double_vertex { dvx : float; dvy : float; dvz : float }.

Record double_plane : Type :=
  mk_double_plane { dpx : float; dpy : float; dpz : float; dpd : float }.

(** [double result = (double)x*vertex.x + (double)y*vertex.y
    + (double)z*vertex.z + d] *)
Definition position_result (p : double_plane) (v : double_vertex) : float :=
  (dpx p * dvx v + dpy p * dvy v + dpz p * dvz v + dpd p)%float.

(** [stl_plane::position], with the comparisons of [double]. *)
Definition position_double (p : double_plane) (v : double_vertex) : stl_position :=
  let result := position_result p v in
  if (0 <? result)%float then above
  else if (result <? 0)%float then below
  else on.

End DoublePrecision.

Section ExactValue.

Import QArith.

(** The number a finite binary64 value stands for, as a fraction (an
    infinity and NaN stand for no number; they are given 0 here and
    told apart by [PrimFloat.is_finite]). *)
Definition SF2Q (f : SpecFloat.spec_float) : Q :=
  match f with
  | SpecFloat.S754_finite s m e =>
      (inject_Z (if s then Z.neg m else Z.pos m) * inject_Z 2 ^ e)%Q
  | _ => 0%Q
  end.

Definition double_value (f : PrimFloat.float) : Q := SF2Q (FloatOps.Prim2SF f).

(** The value is one a [float] (binary32) holds: rounding it to 24
    bits of mantissa and the exponents of binary32 changes nothing. *)
Definition is_single (f : PrimFloat.float) : bool :=
  match FloatOps.Prim2SF f with
  | SpecFloat.S754_finite s m e =>
      Qeq_bool (SF2Q (SpecFloat.binary_round 24 128 s m e))
               (SF2Q (SpecFloat.S754_finite s m e))
  | _ => true
  end.

(** [normal . vertex + d] without any rounding. *)
Definition position_exact (p : double_plane) (v : double_vertex) : Q :=
  (double_value (dpx p) * double_value (dvx v)
   + double_value (dpy p) * double_value (dvy v)
   + double_value (dpz p) * double_value (dvz v)
   + double_value (dpd p))%Q.

End ExactValue.

(** ** Border edges and the border set *)

(** [struct stl_vertex_pair]: a directed edge of the hole, from [x] to [y]. *)
Record stl_vertex_pair : Type := mk_pair { ex : stl_vertex; ey : stl_vertex }.

(** [stl_vertex_pair::operator<]: the six coordinates compared in
    turn.  The comparisons do not round; the coordinates here are
    finite numbers, so not NaN, for which [==] and [<] both fail. *)
Definition pair_lt (e other : stl_vertex_pair) : bool :=
  if feq (vx (ex e)) (vx (ex other)) then
    if feq (vy (ex e)) (vy (ex other)) then
      if feq (vz (ex e)) (vz (ex other)) then
        if feq (vx (ey e)) (vx (ey other)) then
          if feq (vy (ey e)) (vy (ey other)) then
            flt (vz (ey e)) (vz (ey other))
          else flt (vy (ey e)) (vy (ey other))
        else flt (vx (ey e)) (vx (ey other))
      else flt (vz (ex e)) (vz (ex other))
    else flt (vy (ex e)) (vy (ex other))
  else flt (vx (ex e)) (vx (ex other)).

(** [std::set<stl_vertex_pair>::insert]: the set is the list of its
    elements in increasing order; an element equivalent to one already
    there (neither is less than the other) is not inserted. *)
Fixpoint set_insert (e : stl_vertex_pair) (s : list stl_vertex_pair)
  : list stl_vertex_pair :=
  match s with
  | [] => [e]
  | h :: t =>
      if pair_lt e h then e :: s
      else if pair_lt h e then h :: set_insert e t
      else s
  end.

(** ** The facet splitter *)

(** [semifacet]: a part of [original] on three given vertices. *)
Definition semifacet (original : stl_facet) (a b c : stl_vertex) : stl_facet :=
  mk_facet (normal original) a b c (extra original).

(** The three containers [separate] writes to. *)
Record cut_state : Type := mk_state {
  upper : list stl_facet;
  lower : list stl_facet;
  border : list stl_vertex_pair
}.

(** [simple_cut]: [first] and [second] are the two deques passed by
    reference; the result is their new contents and the new border. *)
Definition simple_cut (zero one two : stl_vertex) (facet : stl_facet)
    (plane : stl_plane) (first second : list stl_facet)
    (bd : list stl_vertex_pair)
  : list stl_facet * list stl_facet * list stl_vertex_pair :=
  let middle := intersection plane one two in
  (first ++ [semifacet facet middle zero one],
   second ++ [semifacet facet middle two zero],
   set_insert (mk_pair one middle) bd).

(** [complex_cut] *)
Definition complex_cut (zero one two : stl_vertex) (facet : stl_facet)
    (plane : stl_plane) (first second : list stl_facet)
    (bd : list stl_vertex_pair)
  : list stl_facet * list stl_facet * list stl_vertex_pair :=
  let one_middle := intersection plane zero one in
  let two_middle := intersection plane zero two in
  (first ++ [semifacet facet zero one_middle two_middle],
   (second ++ [semifacet facet one_middle one two])
     ++ [semifacet facet one_middle two two_middle],
   set_insert (mk_pair one_middle two_middle) bd).

(** The indices a [for (i = 0; i < 3; i++)] loop visits. *)
Definition indices : list nat := [0; 1; 2]%nat.

(** [pos[i]] *)
Definition pos (plane : stl_plane) (facet : stl_facet) (i : nat) : stl_position :=
  position plane (vertex facet i).

(** The counting loop of [separate]: one round, on the counters
    [(aboves, belows, ons)], and the three rounds from zero. *)
Definition count_step (plane : stl_plane) (facet : stl_facet)
    (c : nat * nat * nat) (i : nat) : nat * nat * nat :=
  let '(aboves, belows, ons) := c in
  if stl_position_eqb (pos plane facet i) above then (S aboves, belows, ons)
  else if stl_position_eqb (pos plane facet i) below then (aboves, S belows, ons)
  else (aboves, belows, S ons).

Definition counts (plane : stl_plane) (facet : stl_facet) : nat * nat * nat :=
  fold_left (count_step plane facet) indices (0, 0, 0)%nat.

(** The first index whose position is [q] (a loop left at its first hit). *)
Definition first_pos (plane : stl_plane) (facet : stl_facet) (q : stl_position)
  : option nat :=
  find (fun i => stl_position_eqb (pos plane facet i) q) indices.

(** One round of the loop of the [ons == 2] case. *)
Definition two_on_step (plane : stl_plane) (facet : stl_facet)
    (st : cut_state) (i : nat) : cut_state :=
  match pos plane facet i with
  | above =>
      mk_state (upper st ++ [facet]) (lower st)
        (set_insert (mk_pair (vertex facet ((i + 1) mod 3))
                             (vertex facet ((i + 2) mod 3))) (border st))
  | below =>
      mk_state (upper st) (lower st ++ [facet])
        (set_insert (mk_pair (vertex facet ((i + 2) mod 3))
                             (vertex facet ((i + 1) mod 3))) (border st))
  | on => st
  end.

(** [separate].  Where the C++ leaves a loop without having found the
    index it looks for (which the counts exclude), the state is kept. *)
Definition separate (facet : stl_facet) (plane : stl_plane) (st : cut_state)
  : cut_state :=
  let '(aboves, belows, ons) := counts plane facet in
  if (aboves =? 3)%nat then mk_state (upper st ++ [facet]) (lower st) (border st)
  else if (belows =? 3)%nat then mk_state (upper st) (lower st ++ [facet]) (border st)
  else if (ons =? 3)%nat then st
  else if (ons =? 2)%nat then fold_left (two_on_step plane facet) indices st
  else if (ons =? 1)%nat then
    match first_pos plane facet on with
    | None => st
    | Some i =>
        let zero := vertex facet i in
        let one := vertex facet ((i + 1) mod 3) in
        let onepos := pos plane facet ((i + 1) mod 3) in
        let two := vertex facet ((i + 2) mod 3) in
        if (aboves =? 2)%nat then
          mk_state (upper st ++ [facet]) (lower st) (border st)
        else if (belows =? 2)%nat then
          mk_state (upper st) (lower st ++ [facet]) (border st)
        else if stl_position_eqb onepos above then
          let '(u, l, b) :=
            simple_cut zero one two facet plane (upper st) (lower st) (border st) in
          mk_state u l b
        else
          let '(l, u, b) :=
            simple_cut zero one two facet plane (lower st) (upper st) (border st) in
          mk_state u l b
    end
  else
    let one_below :=
      match first_pos plane facet below with
      | None => st
      | Some i =>
          let '(l, u, b) :=
            complex_cut (vertex facet i) (vertex facet ((i + 1) mod 3))
              (vertex facet ((i + 2) mod 3)) facet plane
              (lower st) (upper st) (border st) in
          mk_state u l b
      end in
    if (aboves =? 1)%nat then
      match first_pos plane facet above with
      | None => one_below
      | Some i =>
          let '(u, l, b) :=
            complex_cut (vertex facet i) (vertex facet ((i + 1) mod 3))
              (vertex facet ((i + 2) mod 3)) facet plane
              (upper st) (lower st) (border st) in
          mk_state u l b
      end
    else one_below.

(** The loop of [main] over the facets of the input mesh. *)
Definition empty_state : cut_state := mk_state [] [] [].

Definition separate_all (facets : list stl_facet) (plane : stl_plane) : cut_state :=
  fold_left (fun st facet => separate facet plane st) facets empty_state.

(** ** The border stitcher *)

(** [is_same]: two 2D points closer than [tolerance] in both coordinates. *)
Definition is_same (a b : stl_vertex) (tolerance : R) : bool :=
  flt (ABS (vx a - vx b)) tolerance && flt (ABS (vy a - vy b)) tolerance.

(** What a computation of [main] gives: a value, no value at all (the
    first element of an empty container is read), or not yet a value
    within the allotted number of loop rounds. *)
Inductive outcome (A : Type) : Type :=
  | Finished (a : A)
  | NoValue
  | OutOfFuel.
Arguments Finished {A} a.
Arguments NoValue {A}.
Arguments OutOfFuel {A}.

(** [*c.begin()] and [c.front()]: the first element, when there is one. *)
Definition front {A : Type} (c : list A) : option A :=
  match c with
  | [] => None
  | a :: _ => Some a
  end.

(** [c.back()]: the last element, when there is one. *)
Fixpoint back {A : Type} (c : list A) : option A :=
  match c with
  | [] => None
  | [a] => Some a
  | _ :: t => back t
  end.

(** [c.pop_back()] *)
Definition pop_back {A : Type} (c : list A) : list A := removelast c.

(** The length the program measures an edge of [border2d] by. *)
Definition edge_length (e : stl_vertex_pair) : R :=
  ABS (vx (ex e) - vx (ey e)) + ABS (vy (ex e) - vy (ey e)).

(** One round of the projection loop: the edge is projected and pushed
    to [border2d]; [tolerance] is set in the first round ([None] stands
    for the variable not yet assigned) and lowered in the later ones. *)
Definition project_step (plane : stl_plane) (origin : stl_vertex)
    (acc : list stl_vertex_pair * option R) (i : stl_vertex_pair)
  : list stl_vertex_pair * option R :=
  let x := to_2D plane (ex i) origin in
  let y := to_2D plane (ey i) origin in
  let e := mk_pair x y in
  (fst acc ++ [e],
   match snd acc with
   | None => Some (edge_length e)
   | Some tolerance => Some (STL_MIN tolerance (edge_length e))
   end).

Definition project_border (plane : stl_plane) (origin : stl_vertex)
    (bd : list stl_vertex_pair) : list stl_vertex_pair * option R :=
  fold_left (project_step plane origin) bd ([], None).

(** From [stl_vertex origin = ...] to [tolerance /= 4]: the origin, the
    projected edges and the tolerance. *)
Definition stitch_setup (plane : stl_plane) (bd : list stl_vertex_pair)
  : option (stl_vertex * list stl_vertex_pair * R) :=
  match front bd with
  | None => None
  | Some first_edge =>
      let origin := ex first_edge in
      match project_border plane origin bd with
      | (border2d, Some tolerance) => Some (origin, border2d, tolerance / 4)
      | (_, None) => None
      end
  end.

(** The [for] loop inside the [while]: the first edge one of whose ends
    is the same as [last]; the other end and the list without that edge. *)
Fixpoint scan (last : stl_vertex) (tolerance : R) (border2d : list stl_vertex_pair)
  : option (stl_vertex * list stl_vertex_pair) :=
  match border2d with
  | [] => None
  | i :: rest =>
      if is_same last (ex i) tolerance then Some (ey i, rest)
      else if is_same last (ey i) tolerance then Some (ex i, rest)
      else
        match scan last tolerance rest with
        | Some (v, rest') => Some (v, i :: rest')
        | None => None
        end
  end.

(** The [while (found)] loop, [fuel] bounding its rounds. *)
Fixpoint stitch_loop (fuel : nat) (polyline : list stl_vertex)
    (border2d : list stl_vertex_pair) (tolerance : R)
  : outcome (list stl_vertex * list stl_vertex_pair) :=
  match fuel with
  | O => OutOfFuel
  | S fuel' =>
      match back polyline with
      | None => NoValue
      | Some last =>
          match scan last tolerance border2d with
          | Some (v, rest) => stitch_loop fuel' (polyline ++ [v]) rest tolerance
          | None => Finished (polyline, border2d)
          end
      end
  end.

(** The polyline is closed: its last point is dropped when it is the
    same as the first. *)
Definition close_polyline (polyline : list stl_vertex) (tolerance : R)
  : option (list stl_vertex) :=
  match back polyline, front polyline with
  | Some l, Some f =>
      Some (if is_same l f tolerance then pop_back polyline else polyline)
  | _, _ => None
  end.

(** The stitcher as a whole: the origin and the polygon. *)
Definition stitch (fuel : nat) (plane : stl_plane) (bd : list stl_vertex_pair)
  : outcome (stl_vertex * list stl_vertex) :=
  match stitch_setup plane bd with
  | None => NoValue
  | Some (origin, border2d, tolerance) =>
      match front border2d with
      | None => NoValue
      | Some seed =>
          match stitch_loop fuel [ex seed; ey seed] (tl border2d) tolerance with
          | Finished (polyline, _) =>
              match close_polyline polyline tolerance with
              | Some polygon => Finished (origin, polygon)
              | None => NoValue
              end
          | NoValue => NoValue
          | OutOfFuel => OutOfFuel
          end
      end
  end.

(** ** The cap builder *)

(** [p2t::Point] and [p2t::Triangle] of poly2tri, as far as [main]
    reads them: two coordinates, three points. *)
Record p2t_point : Type := mk_point { ptx : R; pty : R }.

Record p2t_triangle : Type := mk_triangle {
  point0 : p2t_point; point1 : p2t_point; point2 : p2t_point
}.

Definition GetPoint (t : p2t_triangle) (j : nat) : p2t_point :=
  match j with
  | O => point0 t
  | S O => point1 t
  | _ => point2 t
  end.

(** The vertex the inner loop stores in [facet.vertex[j]]; the third
    coordinate of the local [vertex] is not read by [to_3D]. *)
Definition cap_vertex (plane : stl_plane) (origin : stl_vertex)
    (t : p2t_triangle) (j : nat) : stl_vertex :=
  to_3D plane (mk_vertex (ptx (GetPoint t j)) (pty (GetPoint t j)) 0) origin.

(** The facet pushed to [lower]; [junk] stands for the attribute bytes
    of the local [facet], which the program never assigns. *)
Definition cap_lower (plane : stl_plane) (origin : stl_vertex)
    (junk : nat * nat) (t : p2t_triangle) : stl_facet :=
  mk_facet (mk_vertex (px plane) (py plane) (pz plane))
    (cap_vertex plane origin t 0) (cap_vertex plane origin t 1)
    (cap_vertex plane origin t 2) junk.

(** The facet pushed to [upper]: the normal inverted, then
    [vertex[1]] and [vertex[2]] exchanged. *)
Definition cap_upper (plane : stl_plane) (origin : stl_vertex)
    (junk : nat * nat) (t : p2t_triangle) : stl_facet :=
  let facet := cap_lower plane origin junk t in
  let facet := mk_facet (mk_vertex (- px plane) (- py plane) (- pz plane))
                 (vertex0 facet) (vertex1 facet) (vertex2 facet) (extra facet) in
  let v := vertex facet 1 in
  mk_facet (normal facet) (vertex0 facet) (vertex facet 2) v (extra facet).

(** One round of the loop over the triangles, and the loop. *)
Definition cap_step (plane : stl_plane) (origin : stl_vertex) (junk : nat * nat)
    (st : cut_state) (t : p2t_triangle) : cut_state :=
  mk_state (upper st ++ [cap_upper plane origin junk t])
           (lower st ++ [cap_lower plane origin junk t])
           (border st).

Definition build_cap (plane : stl_plane) (origin : stl_vertex) (junk : nat * nat)
    (triangles : list p2t_triangle) (st : cut_state) : cut_state :=
  fold_left (cap_step plane origin junk) triangles st.

(** ** The program as a whole *)

(** The points [main] hands to the triangulation. *)
Definition polygon_points (polyline : list stl_vertex) : list p2t_point :=
  map (fun v => mk_point (vx v) (vy v)) polyline.

(** [main], from the mesh read to the two deques given to [export_stl]:
    the pass over the facets with the plane [stl_plane(0,0,1,0)], the
    stitcher, the triangulation of poly2tri (taken as a function of the
    polygon) and the caps. *)
Definition main_cut (triangulate : list p2t_point -> list p2t_triangle)
    (junk : nat * nat) (fuel : nat) (facets : list stl_facet)
  : outcome (list stl_facet * list stl_facet) :=
  let plane := new_plane 0 0 1 0 in
  let st := separate_all facets plane in
  match stitch fuel plane (border st) with
  | Finished (origin, polyline) =>
      let triangles := triangulate (polygon_points polyline) in
      let st' := build_cap plane origin junk triangles st in
      Finished (upper st', lower st')
  | NoValue => NoValue
  | OutOfFuel => OutOfFuel
  end.

(** ** Vocabulary of the statements *)

(** The plane [main] cuts by: [stl_plane(0,0,1,0)]. *)
Definition main_plane : stl_plane := new_plane 0 0 1 0.

(** A facet on three heights over the points (0,0), (1,0), (0,1). *)
Definition facet_at (z0 z1 z2 : R) : stl_facet :=
  mk_facet (mk_vertex 0 0 1)
    (mk_vertex 0 0 z0) (mk_vertex 1 0 z1) (mk_vertex 0 1 z2) (0, 0)%nat.

(** The state after [facet] is pushed to one of the halves. *)
Definition push_upper (facet : stl_facet) (st : cut_state) : cut_state :=
  mk_state (upper st ++ [facet]) (lower st) (border st).

Definition push_lower (facet : stl_facet) (st : cut_state) : cut_state :=
  mk_state (upper st) (lower st ++ [facet]) (border st).

(** The 2D point of the triangulation as [main] hands it to [to_3D]. *)
Definition point_vertex (p : p2t_point) : stl_vertex :=
  mk_vertex (ptx p) (pty p) 0.

(** An edge of the border in the coordinates of the plane. *)
Definition project_edge (plane : stl_plane) (origin : stl_vertex)
    (i : stl_vertex_pair) : stl_vertex_pair :=
  mk_pair (to_2D plane (ex i) origin) (to_2D plane (ey i) origin).

(** The tolerance variable through one round of the projection loop. *)
Definition tolerance_step (plane : stl_plane) (origin : stl_vertex)
    (t : option R) (i : stl_vertex_pair) : option R :=
  match t with
  | None => Some (edge_length (project_edge plane origin i))
  | Some tolerance =>
      Some (STL_MIN tolerance (edge_length (project_edge plane origin i)))
  end.

(** [m] is the least of the values [f] takes on the list [l]. *)
Definition is_min_over {A : Type} (f : A -> R) (l : list A) (m : R) : Prop :=
  (exists a, In a l /\ f a = m) /\ (forall a, In a l -> m <= f a).

(** The facet has its three vertices above the plane, or its three
    vertices below. *)
Definition strictly_one_side (plane : stl_plane) (facet : stl_facet) : Prop :=
  (forall i, (i < 3)%nat -> pos plane facet i = above) \/
  (forall i, (i < 3)%nat -> pos plane facet i = below).

(** The length of a 2D edge as the sum of the absolute differences of
    its coordinates, and as the Euclidean distance of its ends. *)
Definition manhattan_length (e : stl_vertex_pair) : R :=
  Rabs (vx (ex e) - vx (ey e)) + Rabs (vy (ex e) - vy (ey e)).

Definition euclidean_length (e : stl_vertex_pair) : R :=
  sqrt ((vx (ex e) - vx (ey e)) * (vx (ex e) - vx (ey e))
        + (vy (ex e) - vy (ey e)) * (vy (ex e) - vy (ey e))).

(** A border of one edge, from (0,0,0) to (3,4,0). *)
Definition edge_3_4 : stl_vertex_pair :=
  mk_pair (mk_vertex 0 0 0) (mk_vertex 3 4 0).

(** [a] and [b] have length one and are orthogonal to each other and
    to the normal of the plane. *)
Definition orthonormal_frame (p : stl_plane) : Prop :=
  dot (pa p) (pa p) = 1 /\
  dot (pb p) (pb p) = 1 /\
  dot (pa p) (pb p) = 0 /\
  dot (pa p) (plane_normal p) = 0 /\
  dot (pb p) (plane_normal p) = 0.

(** The two vertices lie strictly on opposite sides of the plane. *)
Definition opposite_sides (p : stl_plane) (a b : stl_vertex) : Prop :=
  (position p a = above /\ position p b = below) \/
  (position p a = below /\ position p b = above).


(** The six coordinates of an edge, in the order [operator<] reads them. *)
Definition coordinates (e : stl_vertex_pair) : list R :=
  [vx (ex e); vy (ex e); vz (ex e); vx (ey e); vy (ey e); vz (ey e)].

(** The first place where two lists differ decides. *)
Fixpoint lex_lt (l m : list R) : bool :=
  match l, m with
  | r :: l', s :: m' => if feq r s then lex_lt l' m' else flt r s
  | _, _ => false
  end.

(** The border set as the program keeps it: strictly increasing. *)
Definition ordered (s : list stl_vertex_pair) : Prop :=
  StronglySorted (fun a b => pair_lt a b = true) s.

(** The cross product, the difference and the sum of two vectors. *)
Definition cross (u v : stl_vector) : stl_vector :=
  mk_vertex (vy u * vz v - vz u * vy v) (vz u * vx v - vx u * vz v)
            (vx u * vy v - vy u * vx v).

Definition vsub (u v : stl_vector) : stl_vector :=
  mk_vertex (vx u - vx v) (vy u - vy v) (vz u - vz v).

Definition vadd (u v : stl_vector) : stl_vector :=
  mk_vertex (vx u + vx v) (vy u + vy v) (vz u + vz v).

(** The area of a facet as a vector, along the normal its winding
    gives, of twice the length. *)
Definition area_vector (f : stl_facet) : stl_vector :=
  cross (vsub (vertex1 f) (vertex0 f)) (vsub (vertex2 f) (vertex0 f)).

Definition sum_area (l : list stl_facet) : stl_vector :=
  fold_right (fun f acc => vadd (area_vector f) acc) (mk_vertex 0 0 0) l.

(** What the pass keeps true of the three containers. *)
Definition pass_invariant (n : nat) (st : cut_state) : Prop :=
  ordered (border st) /\
  (length (border st) <= n)%nat /\
  (length (upper st) + length (lower st) <= 3 * n)%nat.

(** The points [added] to a polyline ending in [last] follow the edges
    [used], one after the other: each edge has one end the same as the
    point before, and the point added is its other end. *)
Fixpoint linked (tolerance : R) (last : stl_vertex)
    (used : list stl_vertex_pair) (added : list stl_vertex) : Prop :=
  match used, added with
  | [], [] => True
  | u :: used', v :: added' =>
      (is_same last (ex u) tolerance = true /\ v = ey u \/
       is_same last (ex u) tolerance = false /\
       is_same last (ey u) tolerance = true /\ v = ex u) /\
      linked tolerance v used' added'
  | _, _ => False
  end.

(** The opposite vector. *)
Definition vopp (u : stl_vector) : stl_vector :=
  mk_vertex (- vx u) (- vy u) (- vz u).

(** No vertex of the facet is on the side [q] of the plane. *)
Definition avoids (plane : stl_plane) (q : stl_position) (g : stl_facet) : Prop :=
  forall j, position plane (vertex g j) <> q.

(** Not all three vertices of the facet are on the plane. *)
Definition off_plane (plane : stl_plane) (f : stl_facet) : Prop :=
  exists i, (i < 3)%nat /\ pos plane f i <> on.

(** What [insert] does to a set [s], told without the way it is done:
    the edge [e] is put in once, at some place, the others staying as
    they are and in their order; or the set is left as it is, and then
    it has an element equivalent to [e], one that is not less than [e]
    and that [e] is not less than. *)
Definition inserted_once (e : stl_vertex_pair)
    (s s' : list stl_vertex_pair) : Prop :=
  (exists l1 l2, s = l1 ++ l2 /\ s' = l1 ++ e :: l2) \/
  (s' = s /\ exists h, In h s /\ pair_lt e h = false /\ pair_lt h e = false).

(** ** Reflection of the comparisons *)

Lemma feq_true (r s : R) : feq r s = true <-> r = s.
Proof. unfold feq; destruct (Req_dec_T r s); split; congruence. Qed.

Lemma feq_false (r s : R) : feq r s = false <-> r <> s.
Proof. unfold feq; destruct (Req_dec_T r s); split; congruence. Qed.

Lemma flt_true (r s : R) : flt r s = true <-> r < s.
Proof. unfold flt; destruct (Rlt_dec r s); split; congruence. Qed.

Lemma flt_false (r s : R) : flt r s = false <-> s <= r.
Proof.
  unfold flt; destruct (Rlt_dec r s); split; intros; try congruence; lra.
Qed.

Lemma feq_refl (r : R) : feq r r = true.
Proof. now apply feq_true. Qed.

Lemma ABS_Rabs (r : R) : ABS r = Rabs r.
Proof.
  unfold ABS, Rabs, flt.
  destruct (Rlt_dec r 0), (Rcase_abs r); lra.
Qed.

Lemma STL_MIN_Rmin (r s : R) : STL_MIN r s = Rmin r s.
Proof.
  unfold STL_MIN, flt; destruct (Rlt_dec r s).
  - rewrite Rmin_left; lra.
  - rewrite Rmin_right; lra.
Qed.

(** ** The classification *)

Lemma position_above (p : stl_plane) (v : stl_vertex) :
  position p v = above <-> position_value p v > 0.
Proof.
  unfold position.
  destruct (flt 0 (position_value p v)) eqn:Hpos.
  - apply flt_true in Hpos; split; [lra | reflexivity].
  - apply flt_false in Hpos.
    destruct (flt (position_value p v) 0); split; (discriminate || lra).
Qed.

Lemma position_below (p : stl_plane) (v : stl_vertex) :
  position p v = below <-> position_value p v < 0.
Proof.
  unfold position.
  destruct (flt 0 (position_value p v)) eqn:Hpos.
  - apply flt_true in Hpos; split; (discriminate || lra).
  - destruct (flt (position_value p v) 0) eqn:Hneg.
    + apply flt_true in Hneg; split; [lra | reflexivity].
    + apply flt_false in Hneg; split; (discriminate || lra).
Qed.

Lemma position_on (p : stl_plane) (v : stl_vertex) :
  position p v = on <-> position_value p v = 0.
Proof.
  unfold position.
  destruct (flt 0 (position_value p v)) eqn:Hpos.
  - apply flt_true in Hpos; split; (discriminate || lra).
  - apply flt_false in Hpos.
    destruct (flt (position_value p v) 0) eqn:Hneg.
    + apply flt_true in Hneg; split; (discriminate || lra).
    + apply flt_false in Hneg; split; [lra | reflexivity].
Qed.

(** In exact arithmetic [position] answers [above] exactly when the
    value [x*vx + y*vy + z*vz + d] is positive, [below] exactly when it
    is negative and [on] exactly when it is zero. *)
Lemma position_partition (p : stl_plane) (v : stl_vertex) :
  (position p v = above <-> position_value p v > 0) /\
  (position p v = below <-> position_value p v < 0) /\
  (position p v = on <-> position_value p v = 0).
Proof.
  split; [apply position_above | split; [apply position_below | apply position_on]].
Qed.

(** ** The classification as the machine computes it *)

Section DoublePosition.

Import PrimFloat FloatAxioms SpecFloat.

(** How a binary64 value compares with zero, by its kind and sign. *)
Lemma double_sign_cases (r : float) :
  ((0 <? r)%float, (r <? 0)%float, (r =? 0)%float, is_nan r)
  = match FloatOps.Prim2SF r with
    | S754_zero _ => (false, false, true, false)
    | S754_nan => (false, false, false, true)
    | S754_infinity s | S754_finite s _ _ =>
        if s then (false, true, false, false) else (true, false, false, false)
    end.
Proof.
  unfold is_nan; rewrite !ltb_spec, !eqb_spec.
  change (FloatOps.Prim2SF 0%float) with (S754_zero false).
  destruct (FloatOps.Prim2SF r) as [s|s| |s m e]; try destruct s; try reflexivity;
    unfold SFltb, SFeqb, SFcompare;
    rewrite Z.compare_refl, Pos.compare_cont_refl; reflexivity.
Qed.

(** C1, as the code has it: with [r] the value [position] computes in
    [double] for [x*vx + y*vy + z*vz + d], the answer is [above] exactly
    when [r] compares greater than zero, [below] exactly when [r]
    compares less than zero, and [on] in every other case: exactly when
    [r] is a zero, of either sign, or NaN.  The three cases exclude each
    other, and no tolerance enters. *)
Theorem position_double_partition (p : double_plane) (v : double_vertex) :
  let r := position_result p v in
  (position_double p v = above <-> (0 <? r)%float = true) /\
  (position_double p v = below <-> (r <? 0)%float = true) /\
  (position_double p v = on <-> (r =? 0)%float = true \/ is_nan r = true) /\
  ((0 <? r)%float = true -> (r <? 0)%float = false) /\
  ((r =? 0)%float = true \/ is_nan r = true ->
   (0 <? r)%float = false /\ (r <? 0)%float = false).
Proof.
  intros r; unfold position_double; fold r.
  pose proof (double_sign_cases r) as H.
  destruct (FloatOps.Prim2SF r) as [s|s| |s m e]; try destruct s;
    injection H as -> -> -> ->; repeat split;
    intros; try discriminate; try reflexivity; try tauto;
    intuition discriminate.
Qed.

(** C1, as the claim reads, fails.  For the plane [x + y + z = 0] and
    the vertex (2^100, 1, -2^100), all of them [float] values, the exact
    value of [x*vx + y*vy + z*vz + d] is 1, and [position] answers [on]:
    the sum 2^100 + 1 is rounded to 2^100.  And for a vertex with a NaN
    coordinate the value computed is NaN, not zero, and the answer is
    [on] as well. *)
Lemma position_on_not_zero :
  (let p := mk_double_plane 1 1 1 0 in
   let v := mk_double_vertex 0x1p100 1 (-0x1p100) in
   forallb is_single [dpx p; dpy p; dpz p; dpd p; dvx v; dvy v; dvz v] = true /\
   position_double p v = on /\
   QArith_base.Qeq (position_exact p v) (QArith_base.inject_Z 1)) /\
  (let p := mk_double_plane 0 0 1 0 in
   let v := mk_double_vertex nan 0 0 in
   position_double p v = on /\
   (position_result p v =? 0)%float = false).
Proof.
  split; cbv zeta; repeat split; vm_compute; reflexivity.
Qed.

End DoublePosition.

(** ** The plane of [main] *)

Lemma main_plane_eq :
  main_plane = mk_plane 0 0 1 0 (mk_vertex 1 0 0) (mk_vertex 0 1 0).
Proof. unfold main_plane, new_plane; rewrite feq_refl; reflexivity. Qed.

Lemma main_plane_value (v : stl_vertex) : position_value main_plane v = vz v.
Proof. rewrite main_plane_eq; unfold position_value; simpl; ring. Qed.

Lemma main_plane_above (v : stl_vertex) : vz v > 0 -> position main_plane v = above.
Proof. intros; apply position_above; rewrite main_plane_value; assumption. Qed.

Lemma main_plane_below (v : stl_vertex) : vz v < 0 -> position main_plane v = below.
Proof. intros; apply position_below; rewrite main_plane_value; assumption. Qed.

Lemma main_plane_on (v : stl_vertex) : vz v = 0 -> position main_plane v = on.
Proof. intros; apply position_on; rewrite main_plane_value; assumption. Qed.

(** ** The facet splitter *)

Lemma set_insert_once (e : stl_vertex_pair) (s : list stl_vertex_pair) :
  inserted_once e s (set_insert e s).
Proof.
  induction s as [|h t IH]; simpl.
  - left; exists [], []; split; reflexivity.
  - destruct (pair_lt e h) eqn:Hlt.
    + left; exists [], (h :: t); split; reflexivity.
    + destruct (pair_lt h e) eqn:Hgt.
      * destruct IH as [(l1 & l2 & -> & ->)|(-> & k & Hk & Hek & Hke)].
        -- left; exists (h :: l1), l2; split; reflexivity.
        -- right; split; [reflexivity|].
           exists k; split; [now right | split; assumption].
      * right; split; [reflexivity|].
        exists h; split; [now left | split; assumption].
Qed.

Section Splitter.

Variable plane : stl_plane.
Variable facet : stl_facet.
Variable st : cut_state.

Local Opaque position intersection set_insert.

(** [separate] run on a facet whose three positions are known. *)
Ltac run_separate H0 H1 H2 :=
  unfold separate, counts, count_step, first_pos, two_on_step, indices,
    simple_cut, complex_cut, pos, push_upper, push_lower;
  simpl; rewrite ?H0, ?H1, ?H2; simpl; rewrite ?H0, ?H1, ?H2; simpl;
  try reflexivity.

Ltac three_indices i Hi :=
  destruct i as [|[|[|i]]]; [ | | | exfalso; lia ]; clear Hi;
  unfold pos; simpl.

(** The positions of the three vertices decide what [separate] does. *)
Lemma separate_all_above :
  pos plane facet 0 = above -> pos plane facet 1 = above ->
  pos plane facet 2 = above -> separate facet plane st = push_upper facet st.
Proof. unfold pos; simpl; intros H0 H1 H2; run_separate H0 H1 H2. Qed.

Lemma separate_all_below :
  pos plane facet 0 = below -> pos plane facet 1 = below ->
  pos plane facet 2 = below -> separate facet plane st = push_lower facet st.
Proof. unfold pos; simpl; intros H0 H1 H2; run_separate H0 H1 H2. Qed.

Lemma separate_all_on :
  pos plane facet 0 = on -> pos plane facet 1 = on ->
  pos plane facet 2 = on -> separate facet plane st = st.
Proof. unfold pos; simpl; intros H0 H1 H2; run_separate H0 H1 H2. Qed.

Lemma separate_on_above_above (i : nat) :
  (i < 3)%nat -> pos plane facet i = on ->
  pos plane facet ((i + 1) mod 3) = above ->
  pos plane facet ((i + 2) mod 3) = above ->
  separate facet plane st = push_upper facet st.
Proof.
  intros Hi; three_indices i Hi; intros H0 H1 H2; run_separate H0 H1 H2.
Qed.

Lemma separate_on_below_below (i : nat) :
  (i < 3)%nat -> pos plane facet i = on ->
  pos plane facet ((i + 1) mod 3) = below ->
  pos plane facet ((i + 2) mod 3) = below ->
  separate facet plane st = push_lower facet st.
Proof.
  intros Hi; three_indices i Hi; intros H0 H1 H2; run_separate H0 H1 H2.
Qed.

(** C7: a facet with its three vertices above (below) the plane, or
    with one vertex on the plane and the two others above (below), is
    pushed unchanged to [upper] ([lower]); the other half and the border
    stay as they were.  A facet with its three vertices on the plane is
    pushed nowhere. *)
Theorem separate_one_side :
  ((forall i, (i < 3)%nat -> pos plane facet i = above) ->
   separate facet plane st = mk_state (upper st ++ [facet]) (lower st) (border st)) /\
  ((forall i, (i < 3)%nat -> pos plane facet i = below) ->
   separate facet plane st = mk_state (upper st) (lower st ++ [facet]) (border st)) /\
  (forall i, (i < 3)%nat -> pos plane facet i = on ->
   pos plane facet ((i + 1) mod 3) = above ->
   pos plane facet ((i + 2) mod 3) = above ->
   separate facet plane st = mk_state (upper st ++ [facet]) (lower st) (border st)) /\
  (forall i, (i < 3)%nat -> pos plane facet i = on ->
   pos plane facet ((i + 1) mod 3) = below ->
   pos plane facet ((i + 2) mod 3) = below ->
   separate facet plane st = mk_state (upper st) (lower st ++ [facet]) (border st)) /\
  ((forall i, (i < 3)%nat -> pos plane facet i = on) ->
   separate facet plane st = st).
Proof.
  repeat split.
  - intros H; apply separate_all_above; apply H; lia.
  - intros H; apply separate_all_below; apply H; lia.
  - apply separate_on_above_above.
  - apply separate_on_below_below.
  - intros H; apply separate_all_on; apply H; lia.
Qed.

(** C2: one vertex [zero] on the plane, the next two, [one] and [two],
    on opposite sides.  With [middle] the intersection of the line from
    [one] to [two], exactly two facets are pushed: the facet on
    (middle, zero, one), in this order, to the half [one] lies in, and
    the facet on (middle, two, zero) to the other half, both with the
    normal and the attribute bytes of the facet cut.  The border is the
    result of one [insert] of the edge (one, middle): the edge put in
    once, or the border unchanged because it has an equivalent edge. *)
Theorem separate_simple_cut (i : nat) :
  (i < 3)%nat -> pos plane facet i = on ->
  let zero := vertex facet i in
  let one := vertex facet ((i + 1) mod 3) in
  let two := vertex facet ((i + 2) mod 3) in
  let middle := intersection plane one two in
  let with_one := mk_facet (normal facet) middle zero one (extra facet) in
  let with_two := mk_facet (normal facet) middle two zero (extra facet) in
  let st' := separate facet plane st in
  (pos plane facet ((i + 1) mod 3) = above ->
   pos plane facet ((i + 2) mod 3) = below ->
   upper st' = upper st ++ [with_one] /\
   lower st' = lower st ++ [with_two] /\
   border st' = set_insert (mk_pair one middle) (border st) /\
   inserted_once (mk_pair one middle) (border st) (border st')) /\
  (pos plane facet ((i + 1) mod 3) = below ->
   pos plane facet ((i + 2) mod 3) = above ->
   upper st' = upper st ++ [with_two] /\
   lower st' = lower st ++ [with_one] /\
   border st' = set_insert (mk_pair one middle) (border st) /\
   inserted_once (mk_pair one middle) (border st) (border st')).
Proof.
  intros Hi; three_indices i Hi; intros H0; split; intros H1 H2;
    run_separate H0 H1 H2;
    (split; [reflexivity | split; [reflexivity | split; [reflexivity|]]]);
    apply set_insert_once.
Qed.

(** C3: no vertex on the plane, [zero] alone on its side and the next
    two, [one] and [two], on the other.  With [one_middle] and
    [two_middle] the intersections of the lines from [zero] to [one] and
    to [two], exactly one facet, on (zero, one_middle, two_middle), is
    pushed to the half of [zero], and exactly two, on
    (one_middle, one, two) and on (one_middle, two, two_middle), in this
    order, to the other half, all with the normal and the attribute
    bytes of the facet cut.  The border is the result of one [insert]
    of the edge (one_middle, two_middle). *)
Theorem separate_complex_cut (i : nat) :
  (i < 3)%nat ->
  let zero := vertex facet i in
  let one := vertex facet ((i + 1) mod 3) in
  let two := vertex facet ((i + 2) mod 3) in
  let one_middle := intersection plane zero one in
  let two_middle := intersection plane zero two in
  let tip := mk_facet (normal facet) zero one_middle two_middle (extra facet) in
  let base1 := mk_facet (normal facet) one_middle one two (extra facet) in
  let base2 := mk_facet (normal facet) one_middle two two_middle (extra facet) in
  let st' := separate facet plane st in
  (pos plane facet i = above ->
   pos plane facet ((i + 1) mod 3) = below ->
   pos plane facet ((i + 2) mod 3) = below ->
   upper st' = upper st ++ [tip] /\
   lower st' = lower st ++ [base1; base2] /\
   border st' = set_insert (mk_pair one_middle two_middle) (border st) /\
   inserted_once (mk_pair one_middle two_middle) (border st) (border st')) /\
  (pos plane facet i = below ->
   pos plane facet ((i + 1) mod 3) = above ->
   pos plane facet ((i + 2) mod 3) = above ->
   upper st' = upper st ++ [base1; base2] /\
   lower st' = lower st ++ [tip] /\
   border st' = set_insert (mk_pair one_middle two_middle) (border st) /\
   inserted_once (mk_pair one_middle two_middle) (border st) (border st')).
Proof.
  intros Hi; three_indices i Hi; split; intros H0 H1 H2;
    run_separate H0 H1 H2; rewrite <- ?app_assoc;
    (split; [reflexivity | split; [reflexivity | split; [reflexivity|]]]);
    apply set_insert_once.
Qed.

End Splitter.

Lemma separate_one_side_witness :
  separate (facet_at 1 2 3) main_plane empty_state
  = mk_state [facet_at 1 2 3] [] [].
Proof.
  apply (proj1 (separate_one_side main_plane (facet_at 1 2 3) empty_state)).
  intros i Hi.
  destruct i as [|[|[|i]]]; [ | | | exfalso; lia ];
    apply main_plane_above; simpl; lra.
Defined.

Lemma separate_simple_cut_witness :
  let f := facet_at 0 1 (-1) in
  let middle := intersection main_plane (vertex1 f) (vertex2 f) in
  upper (separate f main_plane empty_state)
  = [mk_facet (normal f) middle (vertex0 f) (vertex1 f) (extra f)] /\
  lower (separate f main_plane empty_state)
  = [mk_facet (normal f) middle (vertex2 f) (vertex0 f) (extra f)] /\
  border (separate f main_plane empty_state)
  = set_insert (mk_pair (vertex1 f) middle) [] /\
  inserted_once (mk_pair (vertex1 f) middle) []
    (border (separate f main_plane empty_state)).
Proof.
  intros f middle.
  assert (Hi : (0 < 3)%nat) by lia.
  assert (H0 : pos main_plane f 0 = on)
    by (apply main_plane_on; reflexivity).
  apply (proj1 (separate_simple_cut main_plane f empty_state 0 Hi H0)).
  - apply main_plane_above; simpl; lra.
  - apply main_plane_below; simpl; lra.
Defined.

Lemma separate_complex_cut_witness :
  let f := facet_at 1 (-1) (-1) in
  let one_middle := intersection main_plane (vertex0 f) (vertex1 f) in
  let two_middle := intersection main_plane (vertex0 f) (vertex2 f) in
  upper (separate f main_plane empty_state)
  = [mk_facet (normal f) (vertex0 f) one_middle two_middle (extra f)] /\
  lower (separate f main_plane empty_state)
  = [mk_facet (normal f) one_middle (vertex1 f) (vertex2 f) (extra f);
     mk_facet (normal f) one_middle (vertex2 f) two_middle (extra f)] /\
  border (separate f main_plane empty_state)
  = set_insert (mk_pair one_middle two_middle) [] /\
  inserted_once (mk_pair one_middle two_middle) []
    (border (separate f main_plane empty_state)).
Proof.
  intros f one_middle two_middle.
  assert (Hi : (0 < 3)%nat) by lia.
  apply (proj1 (separate_complex_cut main_plane f empty_state 0 Hi)).
  - apply main_plane_above; simpl; lra.
  - apply main_plane_below; simpl; lra.
  - apply main_plane_below; simpl; lra.
Defined.

(** The cut points of the two sample facets, worked out. *)
Example simple_cut_middle :
  intersection main_plane (mk_vertex 1 0 1) (mk_vertex 0 1 (-1))
  = mk_vertex (1 / 2) (1 / 2) 0.
Proof.
  rewrite main_plane_eq; unfold intersection; simpl.
  f_equal; field.
Qed.

(** ** The cap builder *)

Lemma build_cap_app (plane : stl_plane) (origin : stl_vertex) (junk : nat * nat)
    (triangles : list p2t_triangle) (st : cut_state) :
  build_cap plane origin junk triangles st
  = mk_state (upper st ++ map (cap_upper plane origin junk) triangles)
             (lower st ++ map (cap_lower plane origin junk) triangles)
             (border st).
Proof.
  unfold build_cap; revert st.
  induction triangles as [|t ts IH]; intros st; simpl.
  - rewrite !app_nil_r; destruct st; reflexivity.
  - rewrite IH; unfold cap_step; simpl.
    rewrite <- !app_assoc; reflexivity.
Qed.

(** C9: for every triangle (p0, p1, p2) of the triangulation one facet
    is pushed to [lower], on to_3D(p0), to_3D(p1), to_3D(p2) with the
    normal of the plane, and one to [upper], on to_3D(p0), to_3D(p2),
    to_3D(p1) with the opposite normal; both halves grow by the number
    of triangles. *)
Theorem build_cap_facets (plane : stl_plane) (origin : stl_vertex)
    (junk : nat * nat) (triangles : list p2t_triangle) (st : cut_state) :
  let st' := build_cap plane origin junk triangles st in
  let to3 := fun p => to_3D plane (point_vertex p) origin in
  upper st' = upper st ++ map (cap_upper plane origin junk) triangles /\
  lower st' = lower st ++ map (cap_lower plane origin junk) triangles /\
  border st' = border st /\
  (forall t,
     let lo := cap_lower plane origin junk t in
     let up := cap_upper plane origin junk t in
     (vertex0 lo, vertex1 lo, vertex2 lo)
       = (to3 (point0 t), to3 (point1 t), to3 (point2 t)) /\
     normal lo = mk_vertex (px plane) (py plane) (pz plane) /\
     (vertex0 up, vertex1 up, vertex2 up)
       = (to3 (point0 t), to3 (point2 t), to3 (point1 t)) /\
     normal up = mk_vertex (- px plane) (- py plane) (- pz plane)) /\
  length (upper st') = (length (upper st) + length triangles)%nat /\
  length (lower st') = (length (lower st) + length triangles)%nat.
Proof.
  intros st' to3; subst st'; rewrite build_cap_app; simpl.
  repeat split; rewrite length_app, length_map; reflexivity.
Qed.

(** ** The border stitcher: the matching loop *)

Lemma back_snoc {A : Type} (c : list A) (a : A) : back (c ++ [a]) = Some a.
Proof.
  induction c as [|b c IH]; simpl; [reflexivity|].
  rewrite IH; destruct (c ++ [a]) eqn:E; [|reflexivity].
  destruct c; discriminate.
Qed.

Lemma back_some {A : Type} (c : list A) : c <> [] -> exists a, back c = Some a.
Proof.
  induction c as [|b c IH]; intros H; [contradiction|].
  destruct c as [|b' c]; [exists b; reflexivity|].
  destruct IH as [a Ha]; [discriminate|].
  exists a; exact Ha.
Qed.

(** A successful scan takes exactly one edge out of the list. *)
Lemma scan_length (last : stl_vertex) (tolerance : R)
    (border2d : list stl_vertex_pair) (v : stl_vertex)
    (rest : list stl_vertex_pair) :
  scan last tolerance border2d = Some (v, rest) ->
  S (length rest) = length border2d.
Proof.
  revert v rest; induction border2d as [|i es IH]; intros v rest; simpl.
  - discriminate.
  - destruct (is_same last (ex i) tolerance).
    + intros [= _ <-]; reflexivity.
    + destruct (is_same last (ey i) tolerance).
      * intros [= _ <-]; reflexivity.
      * destruct (scan last tolerance es) as [[v' rest']|]; [|discriminate].
        intros [= _ <-]; simpl; f_equal; eapply IH; reflexivity.
Qed.

(** The loop from any non-empty polyline: it leaves after some number
    [n] of successful rounds, not more than there are edges. *)
Lemma stitch_loop_runs (tolerance : R) (m : nat) :
  forall (polyline : list stl_vertex) (border2d : list stl_vertex_pair),
    length border2d = m -> polyline <> [] ->
    exists (n : nat) (polyline' : list stl_vertex) (left : list stl_vertex_pair),
      (n <= m)%nat /\
      (forall fuel, (n < fuel)%nat ->
         stitch_loop fuel polyline border2d tolerance = Finished (polyline', left)) /\
      (forall fuel, (fuel <= n)%nat ->
         stitch_loop fuel polyline border2d tolerance = OutOfFuel) /\
      length polyline' = (length polyline + n)%nat /\
      (length left + n)%nat = m /\
      (exists last, back polyline' = Some last /\ scan last tolerance left = None).
Proof.
  induction m as [|m IH]; intros polyline border2d Hlen Hne.
  - destruct border2d; [|discriminate].
    destruct (back_some polyline Hne) as [last Hlast].
    exists 0%nat, polyline, []; repeat split; try lia.
    + intros [|fuel] Hf; [lia|]; simpl; rewrite Hlast; reflexivity.
    + intros [|fuel] Hf; [reflexivity|lia].
    + exists last; split; [assumption|reflexivity].
  - destruct (back_some polyline Hne) as [last Hlast].
    destruct (scan last tolerance border2d) as [[v rest]|] eqn:Hscan.
    + pose proof (scan_length _ _ _ _ _ Hscan) as Hrest.
      destruct (IH (polyline ++ [v]) rest) as (n & p' & l' & Hn & Hfin & Hout & Hp & Hl & Hex).
      * lia.
      * destruct polyline; discriminate.
      * exists (S n), p', l'; repeat split; try lia.
        -- intros [|fuel] Hf; [lia|]; simpl; rewrite Hlast, Hscan.
           apply Hfin; lia.
        -- intros [|fuel] Hf; [reflexivity|]; simpl; rewrite Hlast, Hscan.
           apply Hout; lia.
        -- rewrite Hp, length_app; simpl; lia.
        -- exact Hex.
    + exists 0%nat, polyline, border2d; repeat split; try lia.
      * intros [|fuel] Hf; [lia|]; simpl; rewrite Hlast, Hscan; reflexivity.
      * intros [|fuel] Hf; [reflexivity|lia].
      * exists last; split; assumption.
Qed.

(** C10: the matching loop on a seeded polyline ends.  A round either
    finds an edge, and then the list loses exactly that edge and the
    polyline gains exactly one point, or finds none, and then the loop is
    left.  So there are at most as many successful rounds as edges, and
    the polyline ends with at most two points more than there were edges
    after seeding. *)
Theorem stitch_loop_terminates (seed : stl_vertex_pair)
    (border2d : list stl_vertex_pair) (tolerance : R) :
  (forall polyline last es fuel,
     back polyline = Some last ->
     match scan last tolerance es with
     | Some (v, es') =>
         S (length es') = length es /\
         length (polyline ++ [v]) = S (length polyline) /\
         stitch_loop (S fuel) polyline es tolerance
         = stitch_loop fuel (polyline ++ [v]) es' tolerance
     | None =>
         stitch_loop (S fuel) polyline es tolerance = Finished (polyline, es)
     end) /\
  exists (n : nat) (polyline : list stl_vertex) (left : list stl_vertex_pair),
    (n <= length border2d)%nat /\
    (forall fuel, (n < fuel)%nat ->
       stitch_loop fuel [ex seed; ey seed] border2d tolerance
       = Finished (polyline, left)) /\
    (forall fuel, (fuel <= n)%nat ->
       stitch_loop fuel [ex seed; ey seed] border2d tolerance = OutOfFuel) /\
    length polyline = (2 + n)%nat /\
    (length left + n)%nat = length border2d /\
    (length polyline <= 2 + length border2d)%nat.
Proof.
  split.
  - intros polyline last es fuel Hlast.
    destruct (scan last tolerance es) as [[v es']|] eqn:Hscan.
    + split; [eapply scan_length; eassumption|].
      split; [rewrite length_app; simpl; lia|].
      simpl; rewrite Hlast, Hscan; reflexivity.
    + simpl; rewrite Hlast, Hscan; reflexivity.
  - destruct (stitch_loop_runs tolerance (length border2d)
                [ex seed; ey seed] border2d eq_refl)
      as (n & p' & l' & Hn & Hfin & Hout & Hp & Hl & _); [discriminate|].
    exists n, p', l'; simpl in Hp; repeat split; try assumption; lia.
Qed.

(** ** The border stitcher: projection and tolerance *)

Lemma project_fold (plane : stl_plane) (origin : stl_vertex)
    (bd : list stl_vertex_pair) :
  forall acc t,
    fold_left (project_step plane origin) bd (acc, t)
    = (acc ++ map (project_edge plane origin) bd,
       fold_left (tolerance_step plane origin) bd t).
Proof.
  induction bd as [|i bd IH]; intros acc t; simpl.
  - rewrite app_nil_r; reflexivity.
  - unfold project_step at 2; simpl; rewrite IH, <- app_assoc; simpl.
    destruct t; reflexivity.
Qed.

Lemma tolerance_fold (plane : stl_plane) (origin : stl_vertex)
    (bd : list stl_vertex_pair) :
  forall t,
    exists m,
      fold_left (tolerance_step plane origin) bd (Some t) = Some m /\
      m <= t /\
      (forall i, In i bd -> m <= edge_length (project_edge plane origin i)) /\
      (m = t \/ exists i, In i bd /\ edge_length (project_edge plane origin i) = m).
Proof.
  induction bd as [|i bd IH]; intros t; simpl.
  - exists t; repeat split; [lra | contradiction | now left].
  - destruct (IH (STL_MIN t (edge_length (project_edge plane origin i))))
      as (m & Hm & Hle & Hall & Hex).
    rewrite STL_MIN_Rmin in Hle, Hex.
    exists m; split; [exact Hm|].
    pose proof (Rmin_l t (edge_length (project_edge plane origin i))).
    pose proof (Rmin_r t (edge_length (project_edge plane origin i))).
    repeat split.
    + lra.
    + intros j [<-|Hj]; [lra | now apply Hall].
    + destruct Hex as [Hex|(j & Hj & Hex)].
      * unfold Rmin in Hex.
        destruct (Rle_dec t (edge_length (project_edge plane origin i))).
        -- now left.
        -- right; exists i; split; [now left | congruence].
      * right; exists j; split; [now right | assumption].
Qed.

(** What [stitch_setup] gives on a border that has a first edge. *)
Lemma stitch_setup_cons (plane : stl_plane) (first_edge : stl_vertex_pair)
    (bd : list stl_vertex_pair) :
  exists m,
    stitch_setup plane (first_edge :: bd)
    = Some (ex first_edge,
            map (project_edge plane (ex first_edge)) (first_edge :: bd),
            m / 4) /\
    is_min_over edge_length
      (map (project_edge plane (ex first_edge)) (first_edge :: bd)) m.
Proof.
  unfold stitch_setup, project_border; simpl front; cbv iota.
  rewrite project_fold; simpl.
  destruct (tolerance_fold plane (ex first_edge) bd
              (edge_length (project_edge plane (ex first_edge) first_edge)))
    as (m & Hm & Hle & Hall & Hex).
  exists m; rewrite Hm; split; [reflexivity|].
  split.
  - destruct Hex as [->|(j & Hj & Hex)].
    + eexists; split; [left; reflexivity | reflexivity].
    + exists (project_edge plane (ex first_edge) j); split; [|assumption].
      right; apply in_map; assumption.
  - intros a [<-|Ha]; [assumption|].
    apply in_map_iff in Ha; destruct Ha as (j & <- & Hj); now apply Hall.
Qed.

(** The loop never reads the end of an empty polyline. *)
Lemma stitch_loop_value (tolerance : R) (fuel : nat) :
  forall polyline border2d,
    polyline <> [] ->
    stitch_loop fuel polyline border2d tolerance = OutOfFuel \/
    exists polyline' left,
      stitch_loop fuel polyline border2d tolerance = Finished (polyline', left) /\
      polyline' <> [].
Proof.
  induction fuel as [|fuel IH]; intros polyline border2d Hne; simpl.
  - now left.
  - destruct (back_some polyline Hne) as [last ->].
    destruct (scan last tolerance border2d) as [[v rest]|].
    + apply IH; destruct polyline; discriminate.
    + right; exists polyline, border2d; split; [reflexivity | assumption].
Qed.

Lemma stitch_no_value (fuel : nat) (plane : stl_plane) (bd : list stl_vertex_pair) :
  stitch fuel plane bd = NoValue <-> bd = [].
Proof.
  split.
  - destruct bd as [|e bd]; [reflexivity|]; intros H; exfalso; revert H.
    unfold stitch.
    destruct (stitch_setup_cons plane e bd) as (m & -> & _).
    cbn [map front tl].
    set (seed := project_edge plane (ex e) e).
    destruct (stitch_loop_value (m / 4) fuel [ex seed; ey seed]
                (map (project_edge plane (ex e)) bd))
      as [->|(p' & l' & -> & Hne)]; [discriminate | discriminate |].
    unfold close_polyline.
    destruct (back_some p' Hne) as [l ->].
    destruct p'; [contradiction|]; discriminate.
  - intros ->; reflexivity.
Qed.

(** ** A mesh the plane does not meet *)

Lemma separate_one_side_border (plane : stl_plane) (facet : stl_facet)
    (st : cut_state) :
  strictly_one_side plane facet ->
  border (separate facet plane st) = border st.
Proof.
  intros [H|H].
  - rewrite separate_all_above; [reflexivity | apply H; lia ..].
  - rewrite separate_all_below; [reflexivity | apply H; lia ..].
Qed.

Lemma separate_fold_border (plane : stl_plane) (facets : list stl_facet) :
  (forall f, In f facets -> strictly_one_side plane f) ->
  forall st,
    border (fold_left (fun st facet => separate facet plane st) facets st)
    = border st.
Proof.
  induction facets as [|f fs IH]; intros Hall st; simpl; [reflexivity|].
  rewrite IH.
  - apply separate_one_side_border, Hall; now left.
  - intros g Hg; apply Hall; now right.
Qed.

(** C8: when every facet lies strictly on one side of the plane the
    border is empty after the pass over the facets; then neither the
    first edge of the border (for the origin) nor the front of the
    projected edges (for the seed of the polyline) has a value.  The
    stitcher is without a value exactly when the border is empty. *)
Theorem no_cut_empty_border (facets : list stl_facet) (plane : stl_plane) :
  (forall f, In f facets -> strictly_one_side plane f) ->
  let bd := border (separate_all facets plane) in
  bd = [] /\
  front bd = None /\
  (forall origin, front (fst (project_border plane origin bd)) = None) /\
  stitch_setup plane bd = None /\
  (forall fuel, stitch fuel plane bd = NoValue) /\
  (forall fuel bd', stitch fuel plane bd' = NoValue <-> bd' = []).
Proof.
  intros Hall bd.
  assert (Hbd : bd = []).
  { subst bd; unfold separate_all; rewrite separate_fold_border; auto. }
  rewrite Hbd; repeat split; try reflexivity; apply stitch_no_value.
Qed.

Lemma no_cut_empty_border_witness :
  border (separate_all [facet_at 1 2 3; facet_at (-1) (-2) (-3)] main_plane) = [].
Proof.
  apply (no_cut_empty_border [facet_at 1 2 3; facet_at (-1) (-2) (-3)] main_plane).
  intros f [<-|[<-|[]]]; [left|right]; intros i Hi;
    (destruct i as [|[|[|i]]]; [ | | | exfalso; lia ]);
    (apply main_plane_above || apply main_plane_below); simpl; lra.
Defined.

(** ** The tolerance *)

Lemma edge_length_manhattan (e : stl_vertex_pair) :
  edge_length e = manhattan_length e.
Proof. unfold edge_length, manhattan_length; rewrite !ABS_Rabs; reflexivity. Qed.

(** C5, as the code has it: the tolerance is a quarter of the least
    length of a projected border edge, the length of an edge being the
    sum of the absolute differences of its two coordinates. *)
Theorem tolerance_quarter_of_min (plane : stl_plane)
    (first_edge : stl_vertex_pair) (bd : list stl_vertex_pair) :
  let border2d := map (project_edge plane (ex first_edge)) (first_edge :: bd) in
  exists m,
    stitch_setup plane (first_edge :: bd) = Some (ex first_edge, border2d, m / 4) /\
    is_min_over manhattan_length border2d m.
Proof.
  intros border2d.
  destruct (stitch_setup_cons plane first_edge bd) as (m & Hs & (a & Ha & Hm) & Hall).
  exists m; split; [exact Hs|]; split.
  - exists a; split; [exact Ha|]; rewrite <- edge_length_manhattan; exact Hm.
  - intros e He; rewrite <- edge_length_manhattan; now apply Hall.
Qed.

Lemma main_plane_to_2D (v origin : stl_vertex) :
  to_2D main_plane v origin
  = mk_vertex (vx v - vx origin) (vy v - vy origin) 0.
Proof.
  rewrite main_plane_eq; unfold to_2D, dot; simpl; f_equal; ring.
Qed.

Lemma edge_3_4_projected :
  project_edge main_plane (mk_vertex 0 0 0) edge_3_4
  = mk_pair (mk_vertex 0 0 0) (mk_vertex 3 4 0).
Proof.
  unfold project_edge, edge_3_4; rewrite !main_plane_to_2D; simpl.
  f_equal; f_equal; ring.
Qed.

(** C5, as the claim reads, fails: on the border of the single edge
    from (0,0,0) to (3,4,0) the tolerance is 7/4, and the Euclidean
    length of the edge is 5. *)
Lemma tolerance_not_euclidean :
  exists origin border2d tolerance,
    stitch_setup main_plane [edge_3_4] = Some (origin, border2d, tolerance) /\
    tolerance = 7 / 4 /\
    ~ (exists m, is_min_over euclidean_length border2d m /\ tolerance = m / 4).
Proof.
  destruct (stitch_setup_cons main_plane edge_3_4 []) as (m & Hs & (a & Ha & Hm) & _).
  simpl in Hs, Ha; rewrite edge_3_4_projected in Hs, Ha.
  destruct Ha as [<-|[]].
  assert (H7 : m = 7).
  { rewrite <- Hm, edge_length_manhattan; unfold manhattan_length; simpl.
    unfold Rabs; destruct (Rcase_abs (0 - 3)), (Rcase_abs (0 - 4)); lra. }
  clear Hm; subst m.
  eexists _, _, _; split; [exact Hs|]; split; [reflexivity|].
  intros (m & ((a & [<-|[]] & Ha) & _) & Hm).
  unfold euclidean_length in Ha; simpl in Ha.
  replace ((0 - 3) * (0 - 3) + (0 - 4) * (0 - 4)) with (5 * 5) in Ha by ring.
  rewrite sqrt_square in Ha; lra.
Qed.

(** ** The basis of the plane *)

Section Frame.

(** Three vectors [a], [b], [n] by their coordinates, [a] and [b] of
    length one, the three pairwise orthogonal, [n] not zero; and a
    vector [w] orthogonal to [n]. *)
Variables a1 a2 a3 b1 b2 b3 n1 n2 n3 w1 w2 w3 : R.

Hypothesis Haa : a1 * a1 + a2 * a2 + a3 * a3 = 1.
Hypothesis Hbb : b1 * b1 + b2 * b2 + b3 * b3 = 1.
Hypothesis Hab : a1 * b1 + a2 * b2 + a3 * b3 = 0.
Hypothesis Han : a1 * n1 + a2 * n2 + a3 * n3 = 0.
Hypothesis Hbn : b1 * n1 + b2 * n2 + b3 * n3 = 0.
Hypothesis Hnn : 0 < n1 * n1 + n2 * n2 + n3 * n3.
Hypothesis Hnw : n1 * w1 + n2 * w2 + n3 * w3 = 0.

Let det : R :=
  a1 * (b2 * n3 - b3 * n2) - a2 * (b1 * n3 - b3 * n1) + a3 * (b1 * n2 - b2 * n1).

Let aw : R := a1 * w1 + a2 * w2 + a3 * w3.
Let bw : R := b1 * w1 + b2 * w2 + b3 * w3.

(** The part of [w] outside the span of [a] and [b]. *)
Let u1 : R := w1 - aw * a1 - bw * b1.
Let u2 : R := w2 - aw * a2 - bw * b2.
Let u3 : R := w3 - aw * a3 - bw * b3.

Lemma det_square : det * det = n1 * n1 + n2 * n2 + n3 * n3.
Proof.
  set (aa := a1 * a1 + a2 * a2 + a3 * a3) in *.
  set (bb := b1 * b1 + b2 * b2 + b3 * b3) in *.
  set (ab := a1 * b1 + a2 * b2 + a3 * b3) in *.
  set (an := a1 * n1 + a2 * n2 + a3 * n3) in *.
  set (bn := b1 * n1 + b2 * n2 + b3 * n3) in *.
  set (nn := n1 * n1 + n2 * n2 + n3 * n3) in *.
  assert (Gram : det * det
                 = aa * bb * nn + 2 * ab * bn * an
                   - aa * bn * bn - bb * an * an - nn * ab * ab)
    by (unfold det, aa, bb, ab, an, bn, nn; ring).
  rewrite Gram, Haa, Hbb, Hab, Han, Hbn; ring.
Qed.

Lemma det_nonzero : det <> 0.
Proof.
  intros H; pose proof det_square as Hd; rewrite H in Hd; lra.
Qed.

Lemma residue_a : u1 * a1 + u2 * a2 + u3 * a3 = 0.
Proof.
  replace (u1 * a1 + u2 * a2 + u3 * a3)
    with (aw * (1 - (a1 * a1 + a2 * a2 + a3 * a3))
          - bw * (a1 * b1 + a2 * b2 + a3 * b3))
    by (unfold u1, u2, u3, aw, bw; ring).
  rewrite Haa, Hab; ring.
Qed.

Lemma residue_b : u1 * b1 + u2 * b2 + u3 * b3 = 0.
Proof.
  replace (u1 * b1 + u2 * b2 + u3 * b3)
    with (bw * (1 - (b1 * b1 + b2 * b2 + b3 * b3))
          - aw * (a1 * b1 + a2 * b2 + a3 * b3))
    by (unfold u1, u2, u3, aw, bw; ring).
  rewrite Hbb, Hab; ring.
Qed.

Lemma residue_n : u1 * n1 + u2 * n2 + u3 * n3 = 0.
Proof.
  replace (u1 * n1 + u2 * n2 + u3 * n3)
    with ((n1 * w1 + n2 * w2 + n3 * w3)
          - aw * (a1 * n1 + a2 * n2 + a3 * n3)
          - bw * (b1 * n1 + b2 * n2 + b3 * n3))
    by (unfold u1, u2, u3, aw, bw; ring).
  rewrite Hnw, Han, Hbn; ring.
Qed.

(** Cramer's rule for the residue. *)
Lemma residue_zero : u1 = 0 /\ u2 = 0 /\ u3 = 0.
Proof.
  pose proof residue_a as Ha; pose proof residue_b as Hb;
    pose proof residue_n as Hn; pose proof det_nonzero as Hd.
  assert (E1 : det * u1 = 0).
  { replace (det * u1)
      with ((u1 * a1 + u2 * a2 + u3 * a3) * (b2 * n3 - b3 * n2)
            + (u1 * b1 + u2 * b2 + u3 * b3) * (n2 * a3 - n3 * a2)
            + (u1 * n1 + u2 * n2 + u3 * n3) * (a2 * b3 - a3 * b2))
      by (unfold det; ring).
    rewrite Ha, Hb, Hn; ring. }
  assert (E2 : det * u2 = 0).
  { replace (det * u2)
      with ((u1 * a1 + u2 * a2 + u3 * a3) * (b3 * n1 - b1 * n3)
            + (u1 * b1 + u2 * b2 + u3 * b3) * (n3 * a1 - n1 * a3)
            + (u1 * n1 + u2 * n2 + u3 * n3) * (a3 * b1 - a1 * b3))
      by (unfold det; ring).
    rewrite Ha, Hb, Hn; ring. }
  assert (E3 : det * u3 = 0).
  { replace (det * u3)
      with ((u1 * a1 + u2 * a2 + u3 * a3) * (b1 * n2 - b2 * n1)
            + (u1 * b1 + u2 * b2 + u3 * b3) * (n1 * a2 - n2 * a1)
            + (u1 * n1 + u2 * n2 + u3 * n3) * (a1 * b2 - a2 * b1))
      by (unfold det; ring).
    rewrite Ha, Hb, Hn; ring. }
  repeat split.
  - destruct (Rmult_integral _ _ E1); [contradiction | assumption].
  - destruct (Rmult_integral _ _ E2); [contradiction | assumption].
  - destruct (Rmult_integral _ _ E3); [contradiction | assumption].
Qed.

(** [w] is the sum of its parts along [a] and along [b]. *)
Lemma frame_complete :
  aw * a1 + bw * b1 = w1 /\ aw * a2 + bw * b2 = w2 /\ aw * a3 + bw * b3 = w3.
Proof.
  destruct residue_zero as (E1 & E2 & E3).
  unfold u1, u2, u3 in *; repeat split; lra.
Qed.

End Frame.

Lemma normalize_dot (v w : stl_vector) :
  dot (normalize v) w = dot v w / sqrt (dot v v).
Proof. unfold normalize, dot, Rdiv; simpl; ring. Qed.

Lemma dot_comm (v w : stl_vector) : dot v w = dot w v.
Proof. unfold dot; ring. Qed.

Lemma normalize_unit (v : stl_vector) :
  0 < dot v v -> dot (normalize v) (normalize v) = 1.
Proof.
  intros Hpos.
  rewrite normalize_dot, dot_comm, normalize_dot.
  pose proof (sqrt_lt_R0 _ Hpos) as Hs.
  pose proof (sqrt_sqrt (dot v v) (Rlt_le _ _ Hpos)) as Hsq.
  unfold Rdiv; rewrite Rmult_assoc, <- Rinv_mult, Hsq.
  apply Rinv_r; lra.
Qed.

Lemma normalize_id (v : stl_vector) : dot v v = 1 -> normalize v = v.
Proof.
  intros H; unfold normalize.
  change (vx v * vx v + vy v * vy v + vz v * vz v) with (dot v v).
  rewrite H, sqrt_1; destruct v; simpl; f_equal; field.
Qed.

(** The general branch of the constructor, by its steps. *)
Lemma basis_a_unit (x y : R) :
  x <> 0 \/ y <> 0 -> dot (basis_a x y) (basis_a x y) = 1.
Proof.
  intros H; apply normalize_unit; unfold dot; simpl.
  destruct H; nra.
Qed.

Lemma basis_a_normal (x y z : R) : dot (basis_a x y) (mk_vertex x y z) = 0.
Proof.
  unfold basis_a; rewrite normalize_dot; unfold dot at 1; simpl.
  unfold Rdiv; ring.
Qed.

Lemma basis_a_flat (x y : R) : vz (basis_a x y) = 0.
Proof. unfold basis_a, normalize; simpl; unfold Rdiv; ring. Qed.

Lemma basis_b_raw_a (x y z : R) :
  x <> 0 \/ y <> 0 -> dot (basis_b_raw x y z) (basis_a x y) = 0.
Proof.
  intros H; pose proof (basis_a_unit x y H) as Ha.
  unfold basis_b_raw; remember (basis_a x y) as a eqn:Ea; clear Ea.
  unfold dot in *; simpl.
  set (r := vx a * 0 + vy a * z + vz a * - y).
  replace ((0 - vx a * r) * vx a + (z - vy a * r) * vy a + (- y - vz a * r) * vz a)
    with (r * (1 - (vx a * vx a + vy a * vy a + vz a * vz a)))
    by (unfold r; ring).
  rewrite Ha; ring.
Qed.

Lemma basis_b_raw_normal (x y z : R) :
  dot (basis_b_raw x y z) (mk_vertex x y z) = 0.
Proof.
  pose proof (basis_a_normal x y z) as Ha.
  unfold basis_b_raw; remember (basis_a x y) as a eqn:Ea; clear Ea.
  unfold dot in *; simpl in *.
  set (r := vx a * 0 + vy a * z + vz a * - y).
  replace ((0 - vx a * r) * x + (z - vy a * r) * y + (- y - vz a * r) * z)
    with (- r * (vx a * x + vy a * y + vz a * z)) by ring.
  rewrite Ha; ring.
Qed.

Lemma basis_b_raw_height (x y z : R) : vz (basis_b_raw x y z) = - y.
Proof. unfold basis_b_raw; cbv zeta; cbn [vz]; rewrite basis_a_flat; ring. Qed.

Lemma basis_b_raw_nonzero (x y z : R) :
  y <> 0 -> 0 < dot (basis_b_raw x y z) (basis_b_raw x y z).
Proof.
  intros Hy; unfold dot; rewrite basis_b_raw_height.
  assert (0 < y * y) by nra.
  nra.
Qed.

(** The four branches of the constructor. *)
Lemma new_plane_z (z d : R) :
  new_plane 0 0 z d = mk_plane 0 0 z d (mk_vertex 1 0 0) (mk_vertex 0 1 0).
Proof. unfold new_plane; rewrite feq_refl; reflexivity. Qed.

Lemma new_plane_x (x d : R) :
  x <> 0 ->
  new_plane x 0 0 d = mk_plane x 0 0 d (mk_vertex 0 1 0) (mk_vertex 0 0 1).
Proof.
  intros Hx; unfold new_plane.
  rewrite (proj2 (feq_false x 0) Hx), feq_refl; reflexivity.
Qed.

Lemma new_plane_y (y d : R) :
  y <> 0 ->
  new_plane 0 y 0 d = mk_plane 0 y 0 d (mk_vertex 1 0 0) (mk_vertex 0 0 1).
Proof.
  intros Hy; unfold new_plane.
  rewrite (proj2 (feq_false y 0) Hy), feq_refl; reflexivity.
Qed.

Lemma new_plane_general (x y z d : R) :
  ~ (x = 0 /\ y = 0) -> ~ (y = 0 /\ z = 0) -> ~ (x = 0 /\ z = 0) ->
  new_plane x y z d
  = mk_plane x y z d (basis_a x y) (normalize (basis_b_raw x y z)).
Proof.
  intros Hxy Hyz Hxz; unfold new_plane, feq.
  destruct (Req_dec_T x 0), (Req_dec_T y 0), (Req_dec_T z 0);
    simpl; try reflexivity; tauto.
Qed.

(** The constructor saves an orthonormal basis for every normal that
    is not zero, but for the normals with [y = 0] and [x], [z] both not
    zero. *)
Lemma new_plane_orthonormal (x y z d : R) :
  x <> 0 \/ y <> 0 \/ z <> 0 ->
  (y = 0 -> x = 0 \/ z = 0) ->
  orthonormal_frame (new_plane x y z d).
Proof.
  intros Hn Hy; unfold orthonormal_frame.
  destruct (Req_dec_T x 0) as [->|Hx0].
  - destruct (Req_dec_T y 0) as [->|Hy0].
    + rewrite new_plane_z; unfold dot; simpl; repeat split; ring.
    + destruct (Req_dec_T z 0) as [->|Hz0].
      * rewrite new_plane_y by assumption; unfold dot; simpl; repeat split; ring.
      * rewrite new_plane_general by tauto.
        unfold plane_normal; simpl.
        assert (Ha : 0 <> 0 \/ y <> 0) by now right.
        repeat split.
        -- now apply basis_a_unit.
        -- apply normalize_unit, basis_b_raw_nonzero; assumption.
        -- rewrite dot_comm, normalize_dot, basis_b_raw_a by assumption.
           unfold Rdiv; ring.
        -- apply basis_a_normal.
        -- rewrite normalize_dot, basis_b_raw_normal; unfold Rdiv; ring.
  - destruct (Req_dec_T y 0) as [->|Hy0].
    + destruct (Hy eq_refl) as [?| ->]; [contradiction|].
      rewrite new_plane_x by assumption; unfold dot; simpl; repeat split; ring.
    + rewrite new_plane_general by tauto.
      unfold plane_normal; simpl.
      assert (Ha : x <> 0 \/ y <> 0) by now right.
      repeat split.
      * now apply basis_a_unit.
      * apply normalize_unit, basis_b_raw_nonzero; assumption.
      * rewrite dot_comm, normalize_dot, basis_b_raw_a by assumption.
        unfold Rdiv; ring.
      * apply basis_a_normal.
      * rewrite normalize_dot, basis_b_raw_normal; unfold Rdiv; ring.
Qed.

(** C4 at the normal (1, 0, 1): the last branch of the constructor is
    taken, the vector it hands to [normalize] for [b] is zero, and the
    [b] it saves does not have length one. *)
Theorem new_plane_1_0_1_not_unit :
  new_plane 1 0 1 0
  = mk_plane 1 0 1 0 (basis_a 1 0) (normalize (basis_b_raw 1 0 1)) /\
  basis_b_raw 1 0 1 = mk_vertex 0 0 0 /\
  dot (pb (new_plane 1 0 1 0)) (pb (new_plane 1 0 1 0)) <> 1.
Proof.
  assert (Hraw : basis_b_raw 1 0 1 = mk_vertex 0 0 0).
  { assert (Ha : basis_a 1 0 = mk_vertex 0 (- 1) 0).
    { unfold basis_a; rewrite normalize_id; [reflexivity|].
      unfold dot; simpl; ring. }
    unfold basis_b_raw; rewrite Ha; unfold dot; simpl; f_equal; ring. }
  assert (Hp : new_plane 1 0 1 0
               = mk_plane 1 0 1 0 (basis_a 1 0) (normalize (basis_b_raw 1 0 1))).
  { apply new_plane_general; lra. }
  repeat split; [exact Hp | exact Hraw |].
  rewrite Hp; simpl; rewrite Hraw, normalize_dot.
  unfold dot at 1; simpl.
  unfold Rdiv; rewrite !Rmult_0_l, !Rplus_0_l, Rmult_0_l; lra.
Qed.

(** ** From the plane to 2D and back *)

Lemma new_plane_equation (x y z d : R) :
  px (new_plane x y z d) = x /\ py (new_plane x y z d) = y /\
  pz (new_plane x y z d) = z /\ pd (new_plane x y z d) = d.
Proof.
  unfold new_plane.
  destruct (feq x 0 && feq y 0); [simpl; auto|].
  destruct (feq y 0 && feq z 0); [simpl; auto|].
  destruct (feq x 0 && feq z 0); simpl; auto.
Qed.

(** With an orthonormal basis, a vertex whose difference from the
    origin is parallel to the plane comes back from 2D as it was. *)
Lemma frame_roundtrip (p : stl_plane) (v origin : stl_vertex) :
  orthonormal_frame p ->
  0 < dot (plane_normal p) (plane_normal p) ->
  position_value p v = position_value p origin ->
  to_3D p (to_2D p v origin) origin = v.
Proof.
  intros (Haa & Hbb & Hab & Han & Hbn) Hnn Hval.
  unfold dot, plane_normal, position_value in *; simpl in *.
  assert (Hnw : px p * (vx v - vx origin) + py p * (vy v - vy origin)
                + pz p * (vz v - vz origin) = 0) by lra.
  destruct (frame_complete _ _ _ _ _ _ _ _ _ _ _ _
              Haa Hbb Hab Han Hbn Hnn Hnw) as (E1 & E2 & E3).
  unfold to_3D, to_2D, dot; simpl.
  destruct v as [v1 v2 v3]; simpl in *; f_equal; lra.
Qed.

(** The basis is orthogonal to the normal also when the normal is zero. *)
Lemma new_plane_basis_in_plane (x y z d : R) :
  (y = 0 -> x = 0 \/ z = 0) ->
  dot (pa (new_plane x y z d)) (plane_normal (new_plane x y z d)) = 0 /\
  dot (pb (new_plane x y z d)) (plane_normal (new_plane x y z d)) = 0.
Proof.
  intros Hy.
  destruct (Req_dec_T x 0) as [Hx|Hx]; [destruct (Req_dec_T y 0) as [Hy0|Hy0]|].
  - subst; rewrite new_plane_z; unfold dot; simpl; split; ring.
  - destruct (new_plane_orthonormal x y z d) as (_ & _ & _ & Ha & Hb); auto.
  - destruct (new_plane_orthonormal x y z d) as (_ & _ & _ & Ha & Hb); auto.
Qed.

Lemma to_3D_value (p : stl_plane) (q origin : stl_vertex) :
  dot (pa p) (plane_normal p) = 0 -> dot (pb p) (plane_normal p) = 0 ->
  position_value p (to_3D p q origin) = position_value p origin.
Proof.
  unfold dot, plane_normal, position_value, to_3D; cbn [vx vy vz].
  intros Ha Hb.
  transitivity
    (px p * vx origin + py p * vy origin + pz p * vz origin + pd p
     + vx q * (vx (pa p) * px p + vy (pa p) * py p + vz (pa p) * pz p)
     + vy q * (vx (pb p) * px p + vy (pb p) * py p + vz (pb p) * pz p));
    [ring|].
  rewrite Ha, Hb; ring.
Qed.

(** C6, as the code has it, in exact arithmetic: for a plane built
    from a normal that is not zero (and not one with [y = 0] and [x],
    [z] both not zero), a vertex is given back by [to_3D] after [to_2D]
    exactly when it has the value of the origin in the equation of the
    plane, that is when its difference from the origin is orthogonal to
    the normal. *)
Theorem to_3D_to_2D (x y z d : R) (v origin : stl_vertex) :
  x <> 0 \/ y <> 0 \/ z <> 0 ->
  (y = 0 -> x = 0 \/ z = 0) ->
  (to_3D (new_plane x y z d) (to_2D (new_plane x y z d) v origin) origin = v
   <-> position_value (new_plane x y z d) v
       = position_value (new_plane x y z d) origin).
Proof.
  intros Hn Hy; split.
  - intros Hback.
    destruct (new_plane_basis_in_plane x y z d Hy) as [Ha Hb].
    rewrite <- Hback at 1; now apply to_3D_value.
  - intros Hval.
    apply frame_roundtrip; [now apply new_plane_orthonormal | | exact Hval].
    destruct (new_plane_equation x y z d) as (Ex & Ey & Ez & _).
    unfold plane_normal, dot; simpl; rewrite Ex, Ey, Ez.
    destruct Hn as [H|[H|H]]; nra.
Qed.

Lemma to_3D_to_2D_witness :
  to_3D (new_plane 0 0 1 0)
    (to_2D (new_plane 0 0 1 0) (mk_vertex 3 4 0) (mk_vertex 1 1 0))
    (mk_vertex 1 1 0)
  = mk_vertex 3 4 0.
Proof.
  apply (to_3D_to_2D 0 0 1 0 (mk_vertex 3 4 0) (mk_vertex 1 1 0)).
  - right; right; lra.
  - intros _; left; reflexivity.
  - fold main_plane; rewrite !main_plane_value; reflexivity.
Defined.

(** C6, as the claim reads, fails: the vertex (0,0,1) over the plane
    [z = 0] of [main], with the origin (0,0,0), comes back as the
    origin. *)
Lemma to_3D_to_2D_off_plane :
  to_3D main_plane (to_2D main_plane (mk_vertex 0 0 1) (mk_vertex 0 0 0))
    (mk_vertex 0 0 0)
  = mk_vertex 0 0 0 /\
  to_3D main_plane (to_2D main_plane (mk_vertex 0 0 1) (mk_vertex 0 0 0))
    (mk_vertex 0 0 0)
  <> mk_vertex 0 0 1.
Proof.
  assert (E : to_3D main_plane
                (to_2D main_plane (mk_vertex 0 0 1) (mk_vertex 0 0 0))
                (mk_vertex 0 0 0) = mk_vertex 0 0 0).
  { rewrite main_plane_to_2D, main_plane_eq; unfold to_3D; simpl.
    f_equal; ring. }
  split; [exact E|].
  rewrite E; intros H; injection H; lra.
Qed.

(** ** The stitcher on the border of a unit square *)

Lemma is_same_true (a b : stl_vertex) (tolerance : R) :
  Rabs (vx a - vx b) < tolerance -> Rabs (vy a - vy b) < tolerance ->
  is_same a b tolerance = true.
Proof.
  intros Hx Hy; unfold is_same; rewrite !ABS_Rabs.
  rewrite (proj2 (flt_true _ _) Hx), (proj2 (flt_true _ _) Hy); reflexivity.
Qed.

Lemma is_same_false (a b : stl_vertex) (tolerance : R) :
  tolerance <= Rabs (vx a - vx b) \/ tolerance <= Rabs (vy a - vy b) ->
  is_same a b tolerance = false.
Proof.
  intros H; unfold is_same; rewrite !ABS_Rabs.
  destruct H as [H|H]; rewrite (proj2 (flt_false _ _) H);
    [reflexivity | apply andb_false_r].
Qed.

(** A comparison of two points with known coordinates. *)
Ltac compare_points :=
  simpl; unfold Rabs;
  repeat match goal with |- context [Rcase_abs ?r] => destruct (Rcase_abs r) end;
  lra.

Ltac decide_is_same :=
  match goal with
  | |- context [is_same ?a ?b ?t] =>
      first [ rewrite (is_same_true a b t) by compare_points
            | rewrite (is_same_false a b t) by (left; compare_points)
            | rewrite (is_same_false a b t) by (right; compare_points) ]
  end.

(** The four edges around the unit square in the plane [z = 0], in the
    order of the border set, stitched to the four corners. *)
Example stitch_unit_square :
  stitch 4 main_plane
    [mk_pair (mk_vertex 0 0 0) (mk_vertex 1 0 0);
     mk_pair (mk_vertex 0 1 0) (mk_vertex 0 0 0);
     mk_pair (mk_vertex 1 0 0) (mk_vertex 1 1 0);
     mk_pair (mk_vertex 1 1 0) (mk_vertex 0 1 0)]
  = Finished (mk_vertex 0 0 0,
              [mk_vertex 0 0 0; mk_vertex 1 0 0; mk_vertex 1 1 0; mk_vertex 0 1 0]).
Proof.
  unfold stitch.
  match goal with |- context [stitch_setup ?p (?e :: ?bd)] =>
    destruct (stitch_setup_cons p e bd) as (m & -> & (a & Ha & Hm) & _)
  end.
  assert (E : m = 1).
  { rewrite <- Hm, edge_length_manhattan; simpl in Ha.
    unfold project_edge in Ha; rewrite !main_plane_to_2D in Ha.
    unfold manhattan_length.
    destruct Ha as [<-|[<-|[<-|[<-|[]]]]]; compare_points. }
  clear Hm Ha; subst m.
  cbn [map]; unfold project_edge; rewrite !main_plane_to_2D.
  cbn [vx vy vz ex ey]; rewrite !Rminus_0_r.
  cbn [front tl ex ey stitch_loop back scan app].
  repeat (decide_is_same; cbn [front tl ex ey stitch_loop back scan app]).
  unfold close_polyline; cbn [back front].
  decide_is_same; reflexivity.
Qed.

(** ** The border set *)

Lemma pair_lt_irrefl (e : stl_vertex_pair) : pair_lt e e = false.
Proof.
  unfold pair_lt; rewrite !feq_refl; apply flt_false; lra.
Qed.

(** An edge is in the set once, however often it is inserted. *)
Lemma set_insert_idempotent (e : stl_vertex_pair) (s : list stl_vertex_pair) :
  set_insert e (set_insert e s) = set_insert e s.
Proof.
  induction s as [|h t IH]; simpl.
  - rewrite pair_lt_irrefl; reflexivity.
  - destruct (pair_lt e h) eqn:Hlt; simpl.
    + rewrite pair_lt_irrefl; reflexivity.
    + destruct (pair_lt h e) eqn:Hgt; simpl; rewrite Hlt, Hgt.
      * rewrite IH; reflexivity.
      * reflexivity.
Qed.

(** ** More on vectors and the plane *)

Lemma nonzero_dot (v : stl_vector) :
  vx v <> 0 \/ vy v <> 0 \/ vz v <> 0 -> 0 < dot v v.
Proof. unfold dot; intros [H|[H|H]]; nra. Qed.

(** X1: in exact arithmetic (the rounding of the quotients to [float]
    left aside), [normalize] of a vector that is not zero has length one
    and is the vector multiplied by a positive factor; a second
    [normalize] changes nothing. *)
Theorem normalize_unit_direction (v : stl_vector) :
  vx v <> 0 \/ vy v <> 0 \/ vz v <> 0 ->
  dot (normalize v) (normalize v) = 1 /\
  (exists k, 0 < k /\
     normalize v = mk_vertex (k * vx v) (k * vy v) (k * vz v)) /\
  normalize (normalize v) = normalize v.
Proof.
  intros Hv; pose proof (nonzero_dot v Hv) as Hpos.
  pose proof (normalize_unit v Hpos) as Hunit.
  split; [exact Hunit|]; split.
  - exists (/ sqrt (dot v v)); split.
    + apply Rinv_0_lt_compat, sqrt_lt_R0; exact Hpos.
    + unfold normalize, dot, Rdiv; f_equal; ring.
  - apply normalize_id; exact Hunit.
Qed.

Lemma normalize_unit_direction_witness :
  dot (normalize (mk_vertex 3 0 4)) (normalize (mk_vertex 3 0 4)) = 1.
Proof.
  apply (normalize_unit_direction (mk_vertex 3 0 4)).
  left; simpl; lra.
Defined.

(** X2: the constructor stores the four coefficients as given, and in
    exact arithmetic (the rounding to [float] left aside), for every
    normal that is not zero, those with [y = 0] and [x], [z] both not
    zero apart, the basis it saves is orthonormal and orthogonal to the
    normal. *)
Theorem new_plane_frame (x y z d : R) :
  x <> 0 \/ y <> 0 \/ z <> 0 ->
  (y = 0 -> x = 0 \/ z = 0) ->
  let p := new_plane x y z d in
  (px p, py p, pz p, pd p) = (x, y, z, d) /\
  dot (pa p) (pa p) = 1 /\ dot (pb p) (pb p) = 1 /\ dot (pa p) (pb p) = 0 /\
  dot (pa p) (mk_vertex x y z) = 0 /\ dot (pb p) (mk_vertex x y z) = 0.
Proof.
  intros Hn Hy p.
  destruct (new_plane_equation x y z d) as (Ex & Ey & Ez & Ed).
  destruct (new_plane_orthonormal x y z d Hn Hy) as (Haa & Hbb & Hab & Han & Hbn).
  unfold plane_normal in Han, Hbn; rewrite Ex, Ey, Ez in Han, Hbn.
  subst p; rewrite Ex, Ey, Ez, Ed; repeat split; assumption.
Qed.

Lemma new_plane_frame_witness :
  dot (pb (new_plane 1 2 2 0)) (pb (new_plane 1 2 2 0)) = 1.
Proof.
  apply (new_plane_frame 1 2 2 0).
  - left; lra.
  - intros H; exfalso; lra.
Defined.

(** ** Where a line meets the plane *)

Lemma opposite_sides_values (p : stl_plane) (a b : stl_vertex) :
  opposite_sides p a b ->
  (position_value p a > 0 /\ position_value p b < 0) \/
  (position_value p a < 0 /\ position_value p b > 0).
Proof.
  intros [[Ha Hb]|[Ha Hb]]; [left|right];
    (split; [first [apply position_above | apply position_below]
            | first [apply position_below | apply position_above]]);
    assumption.
Qed.

(** The parameter [t] of [intersection], by the values at the ends. *)
Lemma intersection_parameter (p : stl_plane) (a b : stl_vertex) :
  intersection p a b
  = let t := - position_value p a / (position_value p b - position_value p a) in
    mk_vertex (vx a + (vx b - vx a) * t) (vy a + (vy b - vy a) * t)
              (vz a + (vz b - vz a) * t).
Proof.
  unfold intersection, position_value; cbv zeta; cbn [vx vy vz].
  replace ((vx b - vx a) * px p + (vy b - vy a) * py p + (vz b - vz a) * pz p)
    with (px p * vx b + py p * vy b + pz p * vz b + pd p
          - (px p * vx a + py p * vy a + pz p * vz a + pd p)) by ring.
  replace (vx a * px p + vy a * py p + vz a * pz p + pd p)
    with (px p * vx a + py p * vy a + pz p * vz a + pd p) by ring.
  reflexivity.
Qed.

Lemma intersection_value (p : stl_plane) (a b : stl_vertex) :
  position_value p b <> position_value p a ->
  position_value p (intersection p a b) = 0.
Proof.
  intros Hne; rewrite intersection_parameter; cbv zeta.
  unfold position_value at 1; cbn [vx vy vz].
  set (fa := position_value p a) in *; set (fb := position_value p b) in *.
  replace (px p * (vx a + (vx b - vx a) * (- fa / (fb - fa)))
           + py p * (vy a + (vy b - vy a) * (- fa / (fb - fa)))
           + pz p * (vz a + (vz b - vz a) * (- fa / (fb - fa))) + pd p)
    with (fa + (fb - fa) * (- fa / (fb - fa)))
    by (unfold fa, fb, position_value; ring).
  field; lra.
Qed.

(** X3: in exact arithmetic (the rounding to [float] left aside), for
    two vertices strictly on opposite sides of the plane, [intersection]
    is a point of the plane, and it lies on the segment between the two,
    strictly inside. *)
Theorem intersection_on_plane (p : stl_plane) (a b : stl_vertex) :
  opposite_sides p a b ->
  position p (intersection p a b) = on /\
  exists t, 0 < t < 1 /\
    intersection p a b
    = mk_vertex (vx a + (vx b - vx a) * t) (vy a + (vy b - vy a) * t)
                (vz a + (vz b - vz a) * t).
Proof.
  intros H; apply opposite_sides_values in H; split.
  - apply position_on, intersection_value; lra.
  - exists (- position_value p a / (position_value p b - position_value p a)).
    split; [|apply intersection_parameter].
    set (fa := position_value p a) in *; set (fb := position_value p b) in *.
    destruct H as [[Ha Hb]|[Ha Hb]].
    + replace (- fa / (fb - fa)) with (fa / (fa - fb)) by (field; lra).
      split.
      * apply Rdiv_lt_0_compat; lra.
      * apply Rmult_lt_reg_r with (fa - fb); [lra|].
        unfold Rdiv; rewrite Rmult_assoc, Rinv_l by lra; lra.
    + split.
      * apply Rdiv_lt_0_compat; lra.
      * apply Rmult_lt_reg_r with (fb - fa); [lra|].
        unfold Rdiv; rewrite Rmult_assoc, Rinv_l by lra; lra.
Qed.

Lemma intersection_on_plane_witness :
  position main_plane
    (intersection main_plane (mk_vertex 1 0 1) (mk_vertex 0 1 (-1))) = on.
Proof.
  apply (intersection_on_plane main_plane (mk_vertex 1 0 1) (mk_vertex 0 1 (-1))).
  left; split; [apply main_plane_above | apply main_plane_below]; simpl; lra.
Defined.

(** X4: the point does not depend on the direction the line is given
    in: for two vertices strictly on opposite sides, [intersection] of
    [a], [b] is [intersection] of [b], [a]. *)
Theorem intersection_symmetric (p : stl_plane) (a b : stl_vertex) :
  opposite_sides p a b ->
  intersection p a b = intersection p b a.
Proof.
  intros H; apply opposite_sides_values in H.
  rewrite !intersection_parameter; cbv zeta.
  set (fa := position_value p a) in *; set (fb := position_value p b) in *.
  f_equal; field; lra.
Qed.

Lemma intersection_symmetric_witness :
  intersection main_plane (mk_vertex 1 0 1) (mk_vertex 0 1 (-1))
  = intersection main_plane (mk_vertex 0 1 (-1)) (mk_vertex 1 0 1).
Proof.
  apply intersection_symmetric.
  left; split; [apply main_plane_above | apply main_plane_below]; simpl; lra.
Defined.

(** ** More on the coordinates of the plane *)

Lemma to_2D_of_to_3D (p : stl_plane) (q origin : stl_vertex) :
  dot (pa p) (pa p) = 1 -> dot (pb p) (pb p) = 1 -> dot (pa p) (pb p) = 0 ->
  to_2D p (to_3D p q origin) origin = mk_vertex (vx q) (vy q) 0.
Proof.
  unfold dot at 1 2 3; intros Haa Hbb Hab.
  unfold to_2D, to_3D, dot; cbn [vx vy vz]; f_equal.
  - transitivity
      (vx q * (vx (pa p) * vx (pa p) + vy (pa p) * vy (pa p) + vz (pa p) * vz (pa p))
       + vy q * (vx (pa p) * vx (pb p) + vy (pa p) * vy (pb p) + vz (pa p) * vz (pb p)));
      [ring|].
    rewrite Haa, Hab; ring.
  - transitivity
      (vx q * (vx (pa p) * vx (pb p) + vy (pa p) * vy (pb p) + vz (pa p) * vz (pb p))
       + vy q * (vx (pb p) * vx (pb p) + vy (pb p) * vy (pb p) + vz (pb p) * vz (pb p)));
      [ring|].
    rewrite Hbb, Hab; ring.
Qed.

(** X5: the other way round, in exact arithmetic (the rounding to
    [float] left aside).  For a plane built from a normal that is
    not zero (those with [y = 0] and [x], [z] both not zero apart), a 2D
    point taken to 3D and back has its two coordinates again, and the
    third is 0, whatever the origin. *)
Theorem to_2D_to_3D (x y z d : R) (q origin : stl_vertex) :
  x <> 0 \/ y <> 0 \/ z <> 0 ->
  (y = 0 -> x = 0 \/ z = 0) ->
  to_2D (new_plane x y z d) (to_3D (new_plane x y z d) q origin) origin
  = mk_vertex (vx q) (vy q) 0.
Proof.
  intros Hn Hy.
  destruct (new_plane_orthonormal x y z d Hn Hy) as (Haa & Hbb & Hab & _).
  now apply to_2D_of_to_3D.
Qed.

Lemma to_2D_to_3D_witness :
  to_2D (new_plane 1 2 2 0)
    (to_3D (new_plane 1 2 2 0) (mk_vertex 5 7 0) (mk_vertex 1 1 1))
    (mk_vertex 1 1 1)
  = mk_vertex 5 7 0.
Proof.
  apply (to_2D_to_3D 1 2 2 0 (mk_vertex 5 7 0) (mk_vertex 1 1 1)).
  - left; lra.
  - intros H; exfalso; lra.
Defined.

(** X6: in exact arithmetic (the rounding to [float] left aside),
    [to_3D] stays in the plane of its origin: the point it gives
    has the value of the origin in the equation of the plane, so it is
    on the plane when the origin is.  (Any normal but those with
    [y = 0] and [x], [z] both not zero.) *)
Theorem to_3D_in_plane (x y z d : R) (q origin : stl_vertex) :
  (y = 0 -> x = 0 \/ z = 0) ->
  let p := new_plane x y z d in
  position_value p (to_3D p q origin) = position_value p origin /\
  position p (to_3D p q origin) = position p origin.
Proof.
  intros Hy p.
  destruct (new_plane_basis_in_plane x y z d Hy) as [Ha Hb].
  assert (E : position_value p (to_3D p q origin) = position_value p origin)
    by now apply to_3D_value.
  split; [exact E|]; unfold position; rewrite E; reflexivity.
Qed.

Lemma to_3D_in_plane_witness :
  position_value (new_plane 1 2 2 0)
    (to_3D (new_plane 1 2 2 0) (mk_vertex 5 7 0) (mk_vertex 1 1 1))
  = position_value (new_plane 1 2 2 0) (mk_vertex 1 1 1).
Proof.
  apply (to_3D_in_plane 1 2 2 0 (mk_vertex 5 7 0) (mk_vertex 1 1 1)).
  intros H; exfalso; lra.
Defined.




(** ** The order of the border set *)

Lemma pair_lt_lex (e other : stl_vertex_pair) :
  pair_lt e other = lex_lt (coordinates e) (coordinates other).
Proof.
  unfold pair_lt, coordinates; simpl.
  repeat match goal with
         | |- (if ?c then _ else _) = (if ?c then _ else _) =>
             destruct c; [|reflexivity]
         end.
  destruct (feq (vz (ey e)) (vz (ey other))) eqn:E; [|reflexivity].
  apply feq_true in E; rewrite E; apply flt_false; lra.
Qed.

Lemma coordinates_inj (e other : stl_vertex_pair) :
  coordinates e = coordinates other -> e = other.
Proof.
  destruct e as [[a1 a2 a3] [a4 a5 a6]], other as [[b1 b2 b3] [b4 b5 b6]].
  unfold coordinates; simpl; intros [= -> -> -> -> -> ->]; reflexivity.
Qed.

Lemma lex_lt_irrefl (l : list R) : lex_lt l l = false.
Proof.
  induction l as [|r l IH]; simpl; [reflexivity|].
  rewrite feq_refl; exact IH.
Qed.

Lemma lex_lt_trans (l : list R) :
  forall m n, lex_lt l m = true -> lex_lt m n = true -> lex_lt l n = true.
Proof.
  induction l as [|r l IH]; intros [|s m] [|t n]; simpl; try discriminate.
  unfold feq, flt.
  destruct (Req_dec_T r s), (Req_dec_T s t), (Req_dec_T r t);
    destruct (Rlt_dec r s), (Rlt_dec s t), (Rlt_dec r t);
    try discriminate; try reflexivity; try (exfalso; lra); try apply IH.
Qed.

Lemma lex_lt_total (l : list R) :
  forall m, length l = length m ->
    lex_lt l m = false -> lex_lt m l = false -> l = m.
Proof.
  induction l as [|r l IH]; intros [|s m]; simpl; try discriminate.
  - reflexivity.
  - intros [= Hlen]; unfold feq, flt.
    destruct (Req_dec_T r s), (Req_dec_T s r);
      destruct (Rlt_dec r s), (Rlt_dec s r);
      try discriminate; try (exfalso; lra);
      intros H1 H2; subst; f_equal; apply IH; assumption.
Qed.

Lemma pair_lt_trans (a b c : stl_vertex_pair) :
  pair_lt a b = true -> pair_lt b c = true -> pair_lt a c = true.
Proof. rewrite !pair_lt_lex; apply lex_lt_trans. Qed.

Lemma pair_lt_total (a b : stl_vertex_pair) :
  pair_lt a b = false -> pair_lt b a = false -> a = b.
Proof.
  rewrite !pair_lt_lex; intros H1 H2.
  apply coordinates_inj, lex_lt_total; [reflexivity | assumption ..].
Qed.

(** X8: on edges whose six coordinates are finite numbers (no NaN, no
    infinity; comparisons do not round), [operator<] is a strict total
    order: no edge is less than itself, the relation is transitive, and two edges neither
    of which is less than the other are the same edge, coordinate by
    coordinate. *)
Theorem pair_lt_strict_total_order :
  (forall a, pair_lt a a = false) /\
  (forall a b c, pair_lt a b = true -> pair_lt b c = true -> pair_lt a c = true) /\
  (forall a b, pair_lt a b = true -> pair_lt b a = false) /\
  (forall a b, pair_lt a b = false -> pair_lt b a = false -> a = b).
Proof.
  split; [exact pair_lt_irrefl|].
  split; [exact pair_lt_trans|].
  split; [|exact pair_lt_total].
  intros a b Hab; destruct (pair_lt b a) eqn:Hba; [|reflexivity].
  rewrite <- (pair_lt_irrefl a); symmetry; eapply pair_lt_trans; eassumption.
Qed.

Lemma set_insert_in (e x : stl_vertex_pair) (s : list stl_vertex_pair) :
  In x (set_insert e s) <-> x = e \/ In x s.
Proof.
  induction s as [|h t IH]; simpl.
  - intuition congruence.
  - destruct (pair_lt e h) eqn:Hlt; simpl.
    + intuition congruence.
    + destruct (pair_lt h e) eqn:Hgt; simpl.
      * rewrite IH; intuition congruence.
      * pose proof (pair_lt_total e h Hlt Hgt); subst; intuition congruence.
Qed.

Lemma set_insert_ordered (e : stl_vertex_pair) (s : list stl_vertex_pair) :
  ordered s -> ordered (set_insert e s).
Proof.
  unfold ordered; induction s as [|h t IH]; intros Hs; simpl.
  - constructor; constructor.
  - inversion Hs as [|? ? Ht Hh]; subst.
    destruct (pair_lt e h) eqn:Hlt.
    + constructor; [exact Hs|].
      constructor; [exact Hlt|].
      rewrite Forall_forall in *; intros x Hx.
      eapply pair_lt_trans; [exact Hlt | now apply Hh].
    + destruct (pair_lt h e) eqn:Hgt; [|exact Hs].
      constructor; [now apply IH|].
      rewrite Forall_forall in *; intros x Hx.
      apply set_insert_in in Hx; destruct Hx as [->|Hx]; [exact Hgt | now apply Hh].
Qed.

Lemma set_insert_length (e : stl_vertex_pair) (s : list stl_vertex_pair) :
  (length s <= length (set_insert e s) <= S (length s))%nat.
Proof.
  induction s as [|h t IH]; simpl; [lia|].
  destruct (pair_lt e h); simpl; [lia|].
  destruct (pair_lt h e); simpl; lia.
Qed.

Lemma ordered_NoDup (s : list stl_vertex_pair) : ordered s -> NoDup s.
Proof.
  unfold ordered; induction 1 as [|h t Ht IH Hh]; constructor; [|exact IH].
  intros Hin; rewrite Forall_forall in Hh; specialize (Hh h Hin).
  rewrite pair_lt_irrefl in Hh; discriminate.
Qed.

(** X9: [insert], taken as the insertion into a list in the order of
    [operator<], keeps the border set a set, for edges with finite
    coordinates (no NaN, no infinity).  On a strictly increasing
    list it gives a strictly increasing list, so one without repeated
    edges; its elements are the edge inserted and the elements there
    were; and it is the same list when the edge was there already. *)
Theorem set_insert_keeps_set (e : stl_vertex_pair) (s : list stl_vertex_pair) :
  ordered s ->
  ordered (set_insert e s) /\
  NoDup (set_insert e s) /\
  (forall x, In x (set_insert e s) <-> x = e \/ In x s) /\
  (In e s -> set_insert e s = s) /\
  (~ In e s -> length (set_insert e s) = S (length s)).
Proof.
  intros Hs.
  split; [now apply set_insert_ordered|].
  split; [now apply ordered_NoDup, set_insert_ordered|].
  split; [intros x; apply set_insert_in|].
  unfold ordered in Hs; induction Hs as [|h t Ht IH Hh]; simpl.
  - split; [contradiction | reflexivity].
  - rewrite Forall_forall in Hh; destruct IH as [IHin IHout]; split.
    + intros [->|Hin].
      * rewrite pair_lt_irrefl; reflexivity.
      * pose proof (Hh e Hin) as Hgt.
        destruct (pair_lt e h) eqn:Hlt.
        -- pose proof (pair_lt_trans _ _ _ Hlt Hgt) as Hee.
           rewrite pair_lt_irrefl in Hee; discriminate.
        -- rewrite Hgt, IHin by assumption; reflexivity.
    + intros Hout.
      destruct (pair_lt e h) eqn:Hlt; [reflexivity|].
      destruct (pair_lt h e) eqn:Hgt.
      * simpl; f_equal; apply IHout; intros Hin; apply Hout; now right.
      * exfalso; apply Hout; left; symmetry; now apply pair_lt_total.
Qed.

Lemma set_insert_keeps_set_witness :
  ordered (set_insert edge_3_4 [mk_pair (mk_vertex 0 0 0) (mk_vertex 1 0 0)]).
Proof.
  apply (set_insert_keeps_set edge_3_4 [mk_pair (mk_vertex 0 0 0) (mk_vertex 1 0 0)]).
  repeat constructor.
Defined.

(** ** More on the facet splitter *)

Section SplitterCases.

Variable plane : stl_plane.
Variable facet : stl_facet.

Local Opaque position intersection set_insert.

(** [separate] run on a facet whose three positions are known. *)
Ltac run_cases H0 H1 H2 :=
  unfold separate, counts, count_step, first_pos, two_on_step, indices,
    simple_cut, complex_cut, pos, empty_state;
  simpl; rewrite ?H0, ?H1, ?H2; simpl; rewrite ?H0, ?H1, ?H2; simpl.

(** The twenty-seven ways the three vertices can lie. *)
Ltac by_positions H0 H1 H2 :=
  destruct (position plane (vertex0 facet)) eqn:H0;
  destruct (position plane (vertex1 facet)) eqn:H1;
  destruct (position plane (vertex2 facet)) eqn:H2.

(** X10: two vertices on the plane.  The facet is pushed unchanged to
    the half of its third vertex, and the edge between the two vertices
    on the plane is inserted into the border: from the next vertex to
    the one after it when the third vertex is above, the other way
    round when it is below. *)
Theorem separate_two_on (st : cut_state) (i : nat) :
  (i < 3)%nat ->
  pos plane facet ((i + 1) mod 3) = on ->
  pos plane facet ((i + 2) mod 3) = on ->
  (pos plane facet i = above ->
   separate facet plane st =
     mk_state (upper st ++ [facet]) (lower st)
       (set_insert (mk_pair (vertex facet ((i + 1) mod 3))
                            (vertex facet ((i + 2) mod 3))) (border st))) /\
  (pos plane facet i = below ->
   separate facet plane st =
     mk_state (upper st) (lower st ++ [facet])
       (set_insert (mk_pair (vertex facet ((i + 2) mod 3))
                            (vertex facet ((i + 1) mod 3))) (border st))).
Proof.
  intros Hi; destruct i as [|[|[|i]]]; [ | | | exfalso; lia ]; clear Hi;
    unfold pos; simpl; intros H1 H2; split; intros H0;
    run_cases H0 H1 H2; reflexivity.
Qed.

(** What [separate] adds does not depend on what is there. *)
Lemma separate_appends (st : cut_state) :
  upper (separate facet plane st)
  = upper st ++ upper (separate facet plane empty_state) /\
  lower (separate facet plane st)
  = lower st ++ lower (separate facet plane empty_state) /\
  (border (separate facet plane st) = border st /\
   border (separate facet plane empty_state) = []
   \/ exists e, border (separate facet plane st) = set_insert e (border st) /\
                border (separate facet plane empty_state) = set_insert e []).
Proof.
  by_positions H0 H1 H2; run_cases H0 H1 H2;
    rewrite ?app_nil_r, <- ?app_assoc; simpl;
    (split; [reflexivity | split; [reflexivity|]]);
    first [ left; split; reflexivity | right; eexists; split; reflexivity ].
Qed.

Lemma separate_adds_at_most_three :
  (length (upper (separate facet plane empty_state))
   + length (lower (separate facet plane empty_state)) <= 3)%nat.
Proof.
  by_positions H0 H1 H2; run_cases H0 H1 H2; lia.
Qed.

(** X11: [separate] only appends.  The two halves keep what they had,
    in front; what is appended does not depend on what was there, and
    is at most three facets in all; the border keeps its edges and gets
    at most one more. *)
Theorem separate_only_appends (st : cut_state) :
  let added := separate facet plane empty_state in
  upper (separate facet plane st) = upper st ++ upper added /\
  lower (separate facet plane st) = lower st ++ lower added /\
  (length (upper added) + length (lower added) <= 3)%nat /\
  (forall e, In e (border st) -> In e (border (separate facet plane st))) /\
  (length (border (separate facet plane st)) <= S (length (border st)))%nat.
Proof.
  intros added; subst added.
  destruct (separate_appends st) as (Hu & Hl & Hb).
  split; [exact Hu|]; split; [exact Hl|].
  split; [exact separate_adds_at_most_three|].
  destruct Hb as [[-> _]|(e & -> & _)].
  - split; [auto | lia].
  - split.
    + intros x Hx; apply set_insert_in; now right.
    + apply set_insert_length.
Qed.

(** X12: every facet [separate] adds, whole or a part, has the normal
    and the two attribute bytes of the facet it comes from. *)
Theorem separate_copies_normal (g : stl_facet) :
  In g (upper (separate facet plane empty_state)
        ++ lower (separate facet plane empty_state)) ->
  normal g = normal facet /\ extra g = extra facet.
Proof.
  by_positions H0 H1 H2; run_cases H0 H1 H2; intros Hin;
    repeat (destruct Hin as [<-|Hin]; [split; reflexivity|]);
    contradiction.
Qed.

End SplitterCases.

Lemma separate_two_on_witness :
  separate (facet_at 1 0 0) main_plane empty_state
  = mk_state [facet_at 1 0 0] []
      (set_insert (mk_pair (mk_vertex 1 0 0) (mk_vertex 0 1 0)) []).
Proof.
  assert (Hi : (0 < 3)%nat) by lia.
  assert (H1 : pos main_plane (facet_at 1 0 0) ((0 + 1) mod 3) = on)
    by (apply main_plane_on; reflexivity).
  assert (H2 : pos main_plane (facet_at 1 0 0) ((0 + 2) mod 3) = on)
    by (apply main_plane_on; reflexivity).
  apply (proj1 (separate_two_on main_plane (facet_at 1 0 0) empty_state 0 Hi H1 H2)).
  apply main_plane_above; simpl; lra.
Defined.

Lemma separate_copies_normal_witness :
  normal (facet_at 1 2 3) = mk_vertex 0 0 1 /\
  extra (facet_at 1 2 3) = (0, 0)%nat.
Proof.
  apply (separate_copies_normal main_plane (facet_at 1 2 3) (facet_at 1 2 3)).
  rewrite separate_all_above by (apply main_plane_above; simpl; lra).
  left; reflexivity.
Defined.

(** ** The area of the parts *)

Lemma intersection_position (p : stl_plane) (a b : stl_vertex) :
  opposite_sides p a b -> position p (intersection p a b) = on.
Proof.
  intros H; apply opposite_sides_values in H.
  apply position_on, intersection_value; lra.
Qed.

Section SplitterGeometry.

Variable plane : stl_plane.
Variable facet : stl_facet.

Local Opaque position intersection set_insert.

Ltac run_cases H0 H1 H2 :=
  unfold separate, counts, count_step, first_pos, two_on_step, indices,
    simple_cut, complex_cut, pos, empty_state;
  simpl; rewrite ?H0, ?H1, ?H2; simpl; rewrite ?H0, ?H1, ?H2; simpl.

Ltac by_positions H0 H1 H2 :=
  destruct (position plane (vertex0 facet)) eqn:H0;
  destruct (position plane (vertex1 facet)) eqn:H1;
  destruct (position plane (vertex2 facet)) eqn:H2.

(** The cut points as points of their lines, the place on the line
    left open. *)
Ltac open_intersections :=
  rewrite ?intersection_parameter; cbv zeta;
  repeat match goal with
         | |- context [- position_value plane ?a / ?d] =>
             generalize (- position_value plane a / d); intro
         end.

Lemma separate_area_parts :
  (exists i, (i < 3)%nat /\ pos plane facet i <> on) ->
  sum_area (upper (separate facet plane empty_state)
            ++ lower (separate facet plane empty_state))
  = area_vector facet.
Proof.
  intros (i & Hi & Hne); revert Hne.
  destruct i as [|[|[|i]]]; [ | | | exfalso; lia ]; clear Hi;
    unfold pos; simpl; intros Hne;
    by_positions H0 H1 H2; try congruence; run_cases H0 H1 H2;
    open_intersections;
    unfold sum_area, area_vector, semifacet, vadd, vsub, cross; simpl;
    f_equal; ring.
Qed.

(** X13: the parts cover the facet, in exact arithmetic (the rounding
    of the cut points to [float] left aside).  Unless its three vertices
    are all
    on the plane, the area vectors of the facets [separate] adds to the
    two halves sum to the area vector of the facet: nothing of it is
    lost, nothing counted twice, and every part keeps the winding.  A
    facet with its three vertices on the plane adds nothing. *)
Theorem separate_keeps_area :
  ((exists i, (i < 3)%nat /\ pos plane facet i <> on) ->
   sum_area (upper (separate facet plane empty_state)
             ++ lower (separate facet plane empty_state))
   = area_vector facet) /\
  ((forall i, (i < 3)%nat -> pos plane facet i = on) ->
   upper (separate facet plane empty_state)
   ++ lower (separate facet plane empty_state) = []).
Proof.
  split; [exact separate_area_parts|].
  intros Hon.
  rewrite separate_all_on by (apply Hon; lia); reflexivity.
Qed.

(** X14: the edges [separate] puts into the border, in exact
    arithmetic (the rounding of the cut points to [float] left aside).
    The end of every such edge is on the plane.  Its start is on the plane too, except
    in the cut of a facet with one vertex on the plane and the two
    others on opposite sides: there the edge starts at the vertex after
    the one on the plane, which is off the plane. *)
Theorem separate_border_edge (e : stl_vertex_pair) :
  In e (border (separate facet plane empty_state)) ->
  position plane (ey e) = on /\
  (position plane (ex e) = on \/
   exists i, (i < 3)%nat /\ pos plane facet i = on /\
     opposite_sides plane (vertex facet ((i + 1) mod 3))
                          (vertex facet ((i + 2) mod 3)) /\
     ex e = vertex facet ((i + 1) mod 3) /\
     position plane (ex e) <> on).
Proof.
  by_positions H0 H1 H2; run_cases H0 H1 H2; intros Hin;
    try contradiction;
    apply set_insert_in in Hin; destruct Hin as [->|[]]; simpl;
    (split;
     [ first [ assumption
             | apply intersection_position; unfold opposite_sides; tauto ]
     | first [ left; assumption
             | left; apply intersection_position; unfold opposite_sides; tauto
             | right; exists 0%nat; unfold pos, opposite_sides; simpl;
               repeat split; (lia || tauto || congruence)
             | right; exists 1%nat; unfold pos, opposite_sides; simpl;
               repeat split; (lia || tauto || congruence)
             | right; exists 2%nat; unfold pos, opposite_sides; simpl;
               repeat split; (lia || tauto || congruence) ] ]).
Qed.

End SplitterGeometry.

Lemma separate_keeps_area_witness :
  sum_area (upper (separate (facet_at 1 (-1) (-1)) main_plane empty_state)
            ++ lower (separate (facet_at 1 (-1) (-1)) main_plane empty_state))
  = area_vector (facet_at 1 (-1) (-1)).
Proof.
  apply (proj1 (separate_keeps_area main_plane (facet_at 1 (-1) (-1)))).
  exists 0%nat; split; [lia|].
  unfold pos; rewrite main_plane_above by (simpl; lra); discriminate.
Defined.

Lemma separate_border_edge_witness :
  let e := mk_pair (mk_vertex 1 0 0) (mk_vertex 0 1 0) in
  position main_plane (ey e) = on /\
  (position main_plane (ex e) = on \/
   exists i, (i < 3)%nat /\ pos main_plane (facet_at 1 0 0) i = on /\
     opposite_sides main_plane (vertex (facet_at 1 0 0) ((i + 1) mod 3))
                               (vertex (facet_at 1 0 0) ((i + 2) mod 3)) /\
     ex e = vertex (facet_at 1 0 0) ((i + 1) mod 3) /\
     position main_plane (ex e) <> on).
Proof.
  intros e; apply (separate_border_edge main_plane (facet_at 1 0 0) e).
  assert (H : separate (facet_at 1 0 0) main_plane empty_state
              = mk_state [facet_at 1 0 0] []
                  (set_insert (mk_pair (mk_vertex 1 0 0) (mk_vertex 0 1 0)) [])).
  { unfold separate, counts, count_step, first_pos, two_on_step, indices, pos.
    simpl.
    rewrite (main_plane_above (mk_vertex 0 0 1)) by (simpl; lra).
    rewrite (main_plane_on (mk_vertex 1 0 0)) by reflexivity.
    rewrite (main_plane_on (mk_vertex 0 1 0)) by reflexivity.
    reflexivity. }
  rewrite H; left; reflexivity.
Defined.

(** ** The pass over the mesh *)

Lemma separate_fold_above (plane : stl_plane) (facets : list stl_facet) :
  (forall f, In f facets -> forall i, (i < 3)%nat -> pos plane f i = above) ->
  forall st,
    fold_left (fun st facet => separate facet plane st) facets st
    = mk_state (upper st ++ facets) (lower st) (border st).
Proof.
  induction facets as [|f fs IH]; intros Hall st; simpl.
  - rewrite app_nil_r; destruct st; reflexivity.
  - rewrite IH by (intros g Hg; apply Hall; now right).
    rewrite separate_all_above by (apply Hall; [now left | lia]).
    unfold push_upper; simpl; rewrite <- app_assoc; reflexivity.
Qed.

Lemma separate_fold_below (plane : stl_plane) (facets : list stl_facet) :
  (forall f, In f facets -> forall i, (i < 3)%nat -> pos plane f i = below) ->
  forall st,
    fold_left (fun st facet => separate facet plane st) facets st
    = mk_state (upper st) (lower st ++ facets) (border st).
Proof.
  induction facets as [|f fs IH]; intros Hall st; simpl.
  - rewrite app_nil_r; destruct st; reflexivity.
  - rewrite IH by (intros g Hg; apply Hall; now right).
    rewrite separate_all_below by (apply Hall; [now left | lia]).
    unfold push_lower; simpl; rewrite <- app_assoc; reflexivity.
Qed.

(** X15: a mesh the plane does not meet.  When every vertex of every
    facet is above the plane, the upper half is the mesh, facet by facet
    in its order, and the lower half and the border are empty; when
    every vertex is below, the lower half is the mesh. *)
Theorem separate_all_one_side (facets : list stl_facet) (plane : stl_plane) :
  ((forall f, In f facets -> forall i, (i < 3)%nat -> pos plane f i = above) ->
   separate_all facets plane = mk_state facets [] []) /\
  ((forall f, In f facets -> forall i, (i < 3)%nat -> pos plane f i = below) ->
   separate_all facets plane = mk_state [] facets []).
Proof.
  split; intros Hall; unfold separate_all.
  - rewrite separate_fold_above by assumption; reflexivity.
  - rewrite separate_fold_below by assumption; reflexivity.
Qed.

Lemma separate_all_one_side_witness :
  separate_all [facet_at 1 2 3; facet_at 4 5 6] main_plane
  = mk_state [facet_at 1 2 3; facet_at 4 5 6] [] [].
Proof.
  apply (proj1 (separate_all_one_side [facet_at 1 2 3; facet_at 4 5 6] main_plane)).
  intros f [<-|[<-|[]]] i Hi;
    (destruct i as [|[|[|i]]]; [ | | | exfalso; lia ]);
    apply main_plane_above; simpl; lra.
Defined.

Lemma separate_invariant (plane : stl_plane) (facet : stl_facet)
    (n : nat) (st : cut_state) :
  pass_invariant n st -> pass_invariant (S n) (separate facet plane st).
Proof.
  intros (Hord & Hb & Hul).
  destruct (separate_appends plane facet st) as (Hu & Hl & Hbd).
  pose proof (separate_adds_at_most_three plane facet) as H3.
  unfold pass_invariant; rewrite Hu, Hl, !length_app.
  destruct Hbd as [[-> _]|(e & -> & _)].
  - repeat split; [assumption | lia | lia].
  - pose proof (set_insert_length e (border st)).
    repeat split; [now apply set_insert_ordered | lia | lia].
Qed.

Lemma separate_fold_invariant (plane : stl_plane) (facets : list stl_facet) :
  forall n st,
    pass_invariant n st ->
    pass_invariant (n + length facets)
      (fold_left (fun st facet => separate facet plane st) facets st).
Proof.
  induction facets as [|f fs IH]; intros n st Hinv; simpl.
  - rewrite Nat.add_0_r; exact Hinv.
  - rewrite <- Nat.add_succ_comm; apply IH, separate_invariant, Hinv.
Qed.

(** X16: after the pass over a mesh of [n] facets the border is a set
    in the order of [operator<], without a repeated edge, of at most
    [n] edges, and the two halves have at most [3 * n] facets between
    them. *)
Theorem separate_all_bounds (facets : list stl_facet) (plane : stl_plane) :
  let st := separate_all facets plane in
  ordered (border st) /\
  NoDup (border st) /\
  (length (border st) <= length facets)%nat /\
  (length (upper st) + length (lower st) <= 3 * length facets)%nat.
Proof.
  intros st.
  destruct (separate_fold_invariant plane facets 0 empty_state)
    as (Hord & Hb & Hul).
  { repeat split; simpl; [constructor | lia | lia]. }
  fold (separate_all facets plane) in Hord, Hb, Hul; fold st in Hord, Hb, Hul.
  repeat split; [assumption | now apply ordered_NoDup | assumption ..].
Qed.

(** ** More on the border stitcher *)

Lemma is_same_spec (a b : stl_vertex) (tolerance : R) :
  is_same a b tolerance = true <->
  Rabs (vx a - vx b) < tolerance /\ Rabs (vy a - vy b) < tolerance.
Proof.
  unfold is_same; rewrite !ABS_Rabs, andb_true_iff, !flt_true; reflexivity.
Qed.

Lemma is_same_nonpositive (a b : stl_vertex) (tolerance : R) :
  tolerance <= 0 -> is_same a b tolerance = false.
Proof.
  intros Ht; destruct (is_same a b tolerance) eqn:E; [|reflexivity].
  apply is_same_spec in E; destruct E as [E _].
  pose proof (Rabs_pos (vx a - vx b)); lra.
Qed.

(** X17: [is_same] compares the first two coordinates only, each
    within the tolerance, strictly; it does not depend on the order of
    the two points; and with a tolerance of zero or less no two points
    are the same, not even a point and itself. *)
Theorem is_same_properties (a b : stl_vertex) (tolerance : R) :
  (is_same a b tolerance = true <->
   Rabs (vx a - vx b) < tolerance /\ Rabs (vy a - vy b) < tolerance) /\
  is_same a b tolerance = is_same b a tolerance /\
  (forall z z', is_same (mk_vertex (vx a) (vy a) z) (mk_vertex (vx b) (vy b) z')
                  tolerance = is_same a b tolerance) /\
  (is_same a a tolerance = true <-> 0 < tolerance) /\
  (tolerance <= 0 -> is_same a b tolerance = false).
Proof.
  split; [apply is_same_spec|].
  split.
  { unfold is_same; rewrite !ABS_Rabs.
    rewrite (Rabs_minus_sym (vx a) (vx b)), (Rabs_minus_sym (vy a) (vy b)).
    reflexivity. }
  split; [intros z z'; reflexivity|].
  split; [|apply is_same_nonpositive].
  rewrite is_same_spec.
  replace (vx a - vx a) with 0 by ring; replace (vy a - vy a) with 0 by ring.
  rewrite Rabs_R0; tauto.
Qed.


Lemma edge_length_zero (e : stl_vertex_pair) :
  edge_length e = 0 <-> vx (ex e) = vx (ey e) /\ vy (ex e) = vy (ey e).
Proof.
  rewrite edge_length_manhattan; unfold manhattan_length.
  pose proof (Rabs_pos (vx (ex e) - vx (ey e))) as Hx.
  pose proof (Rabs_pos (vy (ex e) - vy (ey e))) as Hy.
  split.
  - intros H.
    assert (Ex : Rabs (vx (ex e) - vx (ey e)) = 0) by lra.
    assert (Ey : Rabs (vy (ex e) - vy (ey e)) = 0) by lra.
    split; apply Rminus_diag_uniq.
    + destruct (Req_dec_T (vx (ex e) - vx (ey e)) 0) as [E|E]; [exact E|].
      apply Rabs_no_R0 in E; contradiction.
    + destruct (Req_dec_T (vy (ex e) - vy (ey e)) 0) as [E|E]; [exact E|].
      apply Rabs_no_R0 in E; contradiction.
  - intros [-> ->].
    replace (vx (ey e) - vx (ey e)) with 0 by ring.
    replace (vy (ey e) - vy (ey e)) with 0 by ring.
    rewrite Rabs_R0; ring.
Qed.

Lemma to_2D_origin (plane : stl_plane) (origin : stl_vertex) :
  to_2D plane origin origin = mk_vertex 0 0 0.
Proof. unfold to_2D, dot; cbn [vx vy vz]; f_equal; ring. Qed.


Lemma scan_nonpositive (last : stl_vertex) (tolerance : R)
    (border2d : list stl_vertex_pair) :
  tolerance <= 0 -> scan last tolerance border2d = None.
Proof.
  intros Ht; induction border2d as [|i es IH]; simpl; [reflexivity|].
  rewrite !is_same_nonpositive, IH by assumption; reflexivity.
Qed.

(** X19: a border edge whose two ends are projected to the same point
    stops the stitcher at once.  The tolerance is then zero, no edge is
    matched, and the polygon is the first projected edge alone, whatever
    the other edges are. *)
Theorem stitch_degenerate_edge (fuel : nat) (plane : stl_plane)
    (first_edge : stl_vertex_pair) (bd : list stl_vertex_pair) :
  (exists e, In e (first_edge :: bd) /\
     to_2D plane (ex e) (ex first_edge) = to_2D plane (ey e) (ex first_edge)) ->
  stitch (S fuel) plane (first_edge :: bd)
  = Finished (ex first_edge,
              [mk_vertex 0 0 0; to_2D plane (ey first_edge) (ex first_edge)]).
Proof.
  intros (e & He & Hsame).
  destruct (stitch_setup_cons plane first_edge bd) as (m & Hs & (a & Ha & Hm) & Hall).
  assert (Hm0 : m / 4 <= 0).
  { assert (Hle : m <= edge_length (project_edge plane (ex first_edge) e))
      by (apply Hall, in_map, He).
    assert (Hz : edge_length (project_edge plane (ex first_edge) e) = 0).
    { apply edge_length_zero; unfold project_edge; cbn [ex ey].
      rewrite Hsame; split; reflexivity. }
    lra. }
  unfold stitch; rewrite Hs; cbn [map front tl].
  unfold project_edge at 1 2 3; cbn [ex ey]; rewrite to_2D_origin.
  cbn [stitch_loop back]; rewrite scan_nonpositive by assumption.
  unfold close_polyline; cbn [back front].
  rewrite is_same_nonpositive by assumption; reflexivity.
Qed.

Lemma stitch_degenerate_edge_witness :
  stitch 1 main_plane [mk_pair (mk_vertex 1 1 0) (mk_vertex 1 1 0); edge_3_4]
  = Finished (mk_vertex 1 1 0,
              [mk_vertex 0 0 0;
               to_2D main_plane (mk_vertex 1 1 0) (mk_vertex 1 1 0)]).
Proof.
  apply (stitch_degenerate_edge 0 main_plane
           (mk_pair (mk_vertex 1 1 0) (mk_vertex 1 1 0)) [edge_3_4]).
  eexists; split; [left; reflexivity | reflexivity].
Defined.

Lemma close_polyline_length (polyline : list stl_vertex) (tolerance : R) :
  (2 <= length polyline)%nat ->
  exists polygon,
    close_polyline polyline tolerance = Some polygon /\
    (length polyline - 1 <= length polygon <= length polyline)%nat.
Proof.
  intros Hlen; unfold close_polyline.
  destruct (back_some polyline) as [l ->]; [destruct polyline; [simpl in Hlen; lia | discriminate]|].
  destruct polyline as [|f rest]; [simpl in Hlen; lia|]; cbn [front].
  eexists; split; [reflexivity|].
  destruct (is_same l f tolerance); [|lia].
  unfold pop_back.
  assert (Hr : length (removelast (f :: rest)) = length rest).
  { clear; revert f; induction rest as [|g rest IH]; intros f; [reflexivity|].
    change (removelast (f :: g :: rest)) with (f :: removelast (g :: rest)).
    cbn [length]; rewrite IH; reflexivity. }
  rewrite Hr; simpl; lia.
Qed.

Lemma stitch_finishes_aux (plane : stl_plane) (first_edge : stl_vertex_pair)
    (bd : list stl_vertex_pair) :
  exists polygon,
    (forall fuel, (S (length bd) <= fuel)%nat ->
       stitch fuel plane (first_edge :: bd) = Finished (ex first_edge, polygon)) /\
    (1 <= length polygon <= 2 + length bd)%nat.
Proof.
  destruct (stitch_setup_cons plane first_edge bd) as (m & Hs & _).
  set (seed := project_edge plane (ex first_edge) first_edge).
  set (rest := map (project_edge plane (ex first_edge)) bd).
  destruct (stitch_loop_runs (m / 4) (length rest) [ex seed; ey seed] rest eq_refl)
    as (n & p' & l' & Hn & Hfin & _ & Hp & _ & _); [discriminate|].
  destruct (close_polyline_length p' (m / 4)) as (polygon & Hc & Hlen).
  { rewrite Hp; simpl; lia. }
  assert (Hrest : length rest = length bd) by (unfold rest; apply length_map).
  exists polygon; split.
  - intros fuel Hfuel; unfold stitch; rewrite Hs; cbn [map front tl].
    fold seed; fold rest; rewrite Hfin by lia; rewrite Hc; reflexivity.
  - rewrite Hp in Hlen; simpl in Hlen; lia.
Qed.

(** X20: the stitcher ends.  On a border with a first edge, as many
    rounds as the border has edges are enough: from there on the result
    is a polygon, the same for every number of rounds, with the start of
    the first edge as origin, of at least one point and at most one point
    more than there are edges. *)
Theorem stitch_finishes (plane : stl_plane) (first_edge : stl_vertex_pair)
    (bd : list stl_vertex_pair) :
  exists polygon,
    (forall fuel, (length (first_edge :: bd) <= fuel)%nat ->
       stitch fuel plane (first_edge :: bd) = Finished (ex first_edge, polygon)) /\
    (1 <= length polygon <= 1 + length (first_edge :: bd))%nat.
Proof. exact (stitch_finishes_aux plane first_edge bd). Qed.

(** ** What the matching loop builds *)

Lemma scan_some (last : stl_vertex) (tolerance : R)
    (border2d : list stl_vertex_pair) (v : stl_vertex)
    (rest : list stl_vertex_pair) :
  scan last tolerance border2d = Some (v, rest) ->
  exists u, Permutation (u :: rest) border2d /\ linked tolerance last [u] [v].
Proof.
  revert v rest; induction border2d as [|i es IH]; intros v rest; simpl.
  - discriminate.
  - destruct (is_same last (ex i) tolerance) eqn:Ex.
    + intros [= <- <-]; exists i; split; [reflexivity|].
      simpl; split; [left; split; [exact Ex | reflexivity] | exact I].
    + destruct (is_same last (ey i) tolerance) eqn:Ey.
      * intros [= <- <-]; exists i; split; [reflexivity|].
        simpl; split; [right; repeat split; assumption | exact I].
      * destruct (scan last tolerance es) as [[v' rest']|]; [|discriminate].
        intros [= <- <-].
        destruct (IH v' rest' eq_refl) as (u & Hperm & Hlink).
        exists u; split; [|exact Hlink].
        rewrite perm_swap; constructor; exact Hperm.
Qed.

Lemma scan_none (last : stl_vertex) (tolerance : R)
    (border2d : list stl_vertex_pair) :
  scan last tolerance border2d = None ->
  forall e, In e border2d ->
    is_same last (ex e) tolerance = false /\ is_same last (ey e) tolerance = false.
Proof.
  induction border2d as [|i es IH]; simpl; [contradiction|].
  destruct (is_same last (ex i) tolerance) eqn:Ex; [discriminate|].
  destruct (is_same last (ey i) tolerance) eqn:Ey; [discriminate|].
  destruct (scan last tolerance es) as [[v' rest']|]; [discriminate|].
  intros _ e [<-|He]; [split; assumption | now apply IH].
Qed.

Lemma stitch_loop_links (tolerance : R) (fuel : nat) :
  forall polyline last border2d polyline' left,
    back polyline = Some last ->
    stitch_loop fuel polyline border2d tolerance = Finished (polyline', left) ->
    exists used added last',
      polyline' = polyline ++ added /\
      Permutation (used ++ left) border2d /\
      linked tolerance last used added /\
      back polyline' = Some last' /\
      (forall e, In e left ->
         is_same last' (ex e) tolerance = false /\
         is_same last' (ey e) tolerance = false).
Proof.
  induction fuel as [|fuel IH]; intros polyline last border2d polyline' left Hlast;
    simpl; [discriminate|].
  rewrite Hlast.
  destruct (scan last tolerance border2d) as [[v rest]|] eqn:Hscan.
  - intros Hloop.
    destruct (scan_some _ _ _ _ _ Hscan) as (u & Hperm & Hlink).
    destruct (IH (polyline ++ [v]) v rest polyline' left (back_snoc _ _) Hloop)
      as (used & added & last' & Hp & Hperm' & Hlinked & Hback & Hleft).
    exists (u :: used), (v :: added), last'.
    split; [rewrite Hp, <- app_assoc; reflexivity|].
    split; [simpl; rewrite <- Hperm; constructor; exact Hperm'|].
    split; [|split; assumption].
    simpl in Hlink |- *; split; [apply Hlink | exact Hlinked].
  - intros [= <- <-].
    exists [], [], last; rewrite app_nil_r.
    split; [reflexivity|]; split; [reflexivity|]; split; [exact I|].
    split; [exact Hlast | now apply scan_none].
Qed.

(** X21: what the matching loop builds.  When the loop is left, the
    polyline is the one it started from with points added at the end;
    the edges of the list are those taken out and those left, none
    lost and none twice; the points added follow the edges taken out,
    each edge touching the point before it with one end and giving its
    other end; and no edge left has an end that is the same as the last
    point. *)
Theorem stitch_loop_chain (fuel : nat) (seed : stl_vertex_pair)
    (border2d : list stl_vertex_pair) (tolerance : R)
    (polyline : list stl_vertex) (left : list stl_vertex_pair) :
  stitch_loop fuel [ex seed; ey seed] border2d tolerance
  = Finished (polyline, left) ->
  exists used added last,
    polyline = [ex seed; ey seed] ++ added /\
    Permutation (used ++ left) border2d /\
    linked tolerance (ey seed) used added /\
    back polyline = Some last /\
    (forall e, In e left ->
       is_same last (ex e) tolerance = false /\
       is_same last (ey e) tolerance = false).
Proof.
  intros Hloop.
  exact (stitch_loop_links tolerance fuel [ex seed; ey seed] (ey seed)
           border2d polyline left eq_refl Hloop).
Qed.

Lemma stitch_loop_chain_witness :
  let seed := mk_pair (mk_vertex 0 0 0) (mk_vertex 1 0 0) in
  let polyline := [mk_vertex 0 0 0; mk_vertex 1 0 0; mk_vertex 1 1 0] in
  exists used added last,
    polyline = [ex seed; ey seed] ++ added /\
    Permutation (used ++ [])
      [mk_pair (mk_vertex 1 0 0) (mk_vertex 1 1 0)] /\
    linked (1 / 4) (ey seed) used added /\
    back polyline = Some last /\
    (forall e, In e [] ->
       is_same last (ex e) (1 / 4) = false /\
       is_same last (ey e) (1 / 4) = false).
Proof.
  intros seed polyline.
  apply (stitch_loop_chain 2 seed
           [mk_pair (mk_vertex 1 0 0) (mk_vertex 1 1 0)] (1 / 4) polyline []).
  cbn [seed ex ey stitch_loop back scan app].
  decide_is_same; reflexivity.
Defined.

(** ** More on the cap builder *)

(** X22: the caps lie in the plane of the origin and face opposite
    ways.  In exact arithmetic (the rounding of [to_3D] to [float] left
    aside) every vertex of a cap facet, lower or upper, has the position
    of the origin, so it is on the plane when the origin is (any normal
    but those with [y = 0] and [x], [z] both not zero); and the area
    vector of the upper facet is the opposite of that of the lower one,
    as their normals are. *)
Theorem cap_facets_in_plane (x y z d : R) (origin : stl_vertex)
    (junk : nat * nat) (t : p2t_triangle) :
  (y = 0 -> x = 0 \/ z = 0) ->
  let p := new_plane x y z d in
  (forall j,
     position p (vertex (cap_lower p origin junk t) j) = position p origin /\
     position p (vertex (cap_upper p origin junk t) j) = position p origin) /\
  area_vector (cap_upper p origin junk t)
  = vopp (area_vector (cap_lower p origin junk t)) /\
  normal (cap_upper p origin junk t) = vopp (normal (cap_lower p origin junk t)).
Proof.
  intros Hy p.
  destruct (new_plane_basis_in_plane x y z d Hy) as [Ha Hb].
  assert (Hpos : forall q, position p (to_3D p q origin) = position p origin).
  { intros q; unfold position; subst p; rewrite to_3D_value by assumption.
    reflexivity. }
  split; [|split].
  - intros [|[|j]]; split; apply Hpos.
  - unfold area_vector, cap_upper, cap_lower, cross, vsub, vopp; cbn [vertex0 vertex1 vertex2 vertex vx vy vz].
    f_equal; ring.
  - reflexivity.
Qed.

Lemma cap_facets_in_plane_witness :
  let t := mk_triangle (mk_point 0 0) (mk_point 1 0) (mk_point 0 1) in
  area_vector (cap_upper (new_plane 1 2 2 0) (mk_vertex 0 0 0) (0, 0)%nat t)
  = vopp (area_vector (cap_lower (new_plane 1 2 2 0) (mk_vertex 0 0 0) (0, 0)%nat t)).
Proof.
  intros t.
  apply (cap_facets_in_plane 1 2 2 0 (mk_vertex 0 0 0) (0, 0)%nat t).
  intros H; exfalso; lra.
Defined.

(** ** The whole run *)

Lemma separate_complex_sample :
  separate_all [facet_at 1 (-1) (-1)] main_plane
  = mk_state
      [semifacet (facet_at 1 (-1) (-1)) (mk_vertex 0 0 1)
         (intersection main_plane (mk_vertex 0 0 1) (mk_vertex 1 0 (-1)))
         (intersection main_plane (mk_vertex 0 0 1) (mk_vertex 0 1 (-1)))]
      [semifacet (facet_at 1 (-1) (-1))
         (intersection main_plane (mk_vertex 0 0 1) (mk_vertex 1 0 (-1)))
         (mk_vertex 1 0 (-1)) (mk_vertex 0 1 (-1));
       semifacet (facet_at 1 (-1) (-1))
         (intersection main_plane (mk_vertex 0 0 1) (mk_vertex 1 0 (-1)))
         (mk_vertex 0 1 (-1))
         (intersection main_plane (mk_vertex 0 0 1) (mk_vertex 0 1 (-1)))]
      [mk_pair
         (intersection main_plane (mk_vertex 0 0 1) (mk_vertex 1 0 (-1)))
         (intersection main_plane (mk_vertex 0 0 1) (mk_vertex 0 1 (-1)))].
Proof.
  unfold separate_all, separate, counts, count_step, first_pos, indices,
    complex_cut, pos, empty_state; simpl.
  rewrite (main_plane_above (mk_vertex 0 0 1)) by (simpl; lra).
  rewrite (main_plane_below (mk_vertex 1 0 (-1))) by (simpl; lra).
  rewrite (main_plane_below (mk_vertex 0 1 (-1))) by (simpl; lra).
  reflexivity.
Qed.

(** X23: the whole run, with the plane [z = 0].  When the pass leaves
    the border empty (a mesh all above the plane, say) the program has
    no defined result, whatever the number of rounds.  Whenever the
    stitcher gives an origin and a polygon, the two deques exported are
    the halves of the pass followed by the caps: one upper and one lower
    facet, built on that origin, for each triangle the triangulation
    gives for the points of that polygon, taken in its order with their
    first two coordinates.  And when the border is not empty the
    stitcher does give a polygon, with the start of the least edge of
    the border as origin, as soon as the rounds are as many as the
    facets of the mesh. *)
Theorem main_cut_result (triangulate : list p2t_point -> list p2t_triangle)
    (junk : nat * nat) (facets : list stl_facet) :
  let st := separate_all facets main_plane in
  (border st = [] ->
   forall fuel, main_cut triangulate junk fuel facets = NoValue) /\
  (forall fuel origin polygon,
     stitch fuel main_plane (border st) = Finished (origin, polygon) ->
     let triangles :=
       triangulate (map (fun v => mk_point (vx v) (vy v)) polygon) in
     main_cut triangulate junk fuel facets
     = Finished
         (upper st ++ map (cap_upper main_plane origin junk) triangles,
          lower st ++ map (cap_lower main_plane origin junk) triangles)) /\
  (forall fuel,
     stitch fuel main_plane (border st) = OutOfFuel ->
     main_cut triangulate junk fuel facets = OutOfFuel) /\
  (forall first_edge bd, border st = first_edge :: bd ->
   exists polygon,
     (1 <= length polygon <= 1 + length facets)%nat /\
     forall fuel, (length facets <= fuel)%nat ->
       stitch fuel main_plane (border st) = Finished (ex first_edge, polygon)).
Proof.
  intros st; split; [|split; [|split]].
  - intros Hb fuel; unfold main_cut; fold main_plane; fold st.
    rewrite Hb, (proj2 (stitch_no_value fuel main_plane [])); reflexivity.
  - intros fuel origin polygon Hs triangles.
    unfold main_cut; fold main_plane; fold st; rewrite Hs.
    rewrite build_cap_app; reflexivity.
  - intros fuel Hs; unfold main_cut; fold main_plane; fold st; rewrite Hs.
    reflexivity.
  - intros first_edge bd Hb.
    destruct (stitch_finishes_aux main_plane first_edge bd) as (polygon & Hfin & Hlen).
    destruct (separate_fold_invariant main_plane facets 0 empty_state)
      as (_ & Hbl & _).
    { repeat split; simpl; [constructor | lia | lia]. }
    fold (separate_all facets main_plane) in Hbl; fold st in Hbl.
    rewrite Hb in Hbl |- *; simpl in Hbl.
    exists polygon; split; [lia|].
    intros fuel Hfuel; apply Hfin; lia.
Qed.

Lemma main_cut_result_witness :
  main_cut (fun _ => []) (0, 0)%nat 1 [facet_at 1 2 3] = NoValue /\
  exists polygon : list stl_vertex,
    main_cut (fun _ => [mk_triangle (mk_point 0 0) (mk_point 1 0) (mk_point 0 1)])
      (0, 0)%nat 1 [facet_at 1 (-1) (-1)]
    = Finished
        (upper (separate_all [facet_at 1 (-1) (-1)] main_plane)
         ++ [cap_upper main_plane
               (intersection main_plane (mk_vertex 0 0 1) (mk_vertex 1 0 (-1)))
               (0, 0)%nat
               (mk_triangle (mk_point 0 0) (mk_point 1 0) (mk_point 0 1))],
         lower (separate_all [facet_at 1 (-1) (-1)] main_plane)
         ++ [cap_lower main_plane
               (intersection main_plane (mk_vertex 0 0 1) (mk_vertex 1 0 (-1)))
               (0, 0)%nat
               (mk_triangle (mk_point 0 0) (mk_point 1 0) (mk_point 0 1))]) /\
    (1 <= length polygon <= 2)%nat.
Proof.
  split.
  - apply (proj1 (main_cut_result (fun _ => []) (0, 0)%nat [facet_at 1 2 3])).
    unfold separate_all; simpl.
    rewrite separate_all_above by (apply main_plane_above; simpl; lra).
    reflexivity.
  - pose (tri := fun _ : list p2t_point =>
                   [mk_triangle (mk_point 0 0) (mk_point 1 0) (mk_point 0 1)]).
    destruct (main_cut_result tri (0, 0)%nat [facet_at 1 (-1) (-1)])
      as (_ & Hcap & _ & Hfin).
    destruct (Hfin _ _ (f_equal border separate_complex_sample))
      as (polygon & Hlen & Hs).
    exists polygon; split; [|exact Hlen].
    assert (H1 : (length [facet_at 1 (-1) (-1)] <= 1)%nat) by (simpl; lia).
    exact (Hcap 1%nat _ polygon (Hs 1%nat H1)).
Defined.

(** ** The two halves of the mesh *)

Section SplitterSides.

Variable plane : stl_plane.
Variable facet : stl_facet.

Local Opaque position intersection set_insert.

Ltac run_cases H0 H1 H2 :=
  unfold separate, counts, count_step, first_pos, two_on_step, indices,
    simple_cut, complex_cut, pos, empty_state;
  simpl; rewrite ?H0, ?H1, ?H2; simpl; rewrite ?H0, ?H1, ?H2; simpl.

Ltac by_positions H0 H1 H2 :=
  destruct (position plane (vertex0 facet)) eqn:H0;
  destruct (position plane (vertex1 facet)) eqn:H1;
  destruct (position plane (vertex2 facet)) eqn:H2.

Ltac not_on_side H0 H1 H2 :=
  intros [|[|j]]; simpl;
  first [ rewrite H0; discriminate | rewrite H1; discriminate
        | rewrite H2; discriminate
        | rewrite intersection_position;
          [discriminate | unfold opposite_sides; tauto] ].

Lemma separate_sides :
  (forall g, In g (upper (separate facet plane empty_state)) ->
     avoids plane below g) /\
  (forall g, In g (lower (separate facet plane empty_state)) ->
     avoids plane above g).
Proof.
  unfold avoids.
  by_positions H0 H1 H2; run_cases H0 H1 H2; split; intros g Hin;
    repeat (destruct Hin as [<-|Hin]; [not_on_side H0 H1 H2|]);
    contradiction.
Qed.

End SplitterSides.

Lemma separate_fold_sides (plane : stl_plane) (facets : list stl_facet) :
  forall st,
    Forall (avoids plane below) (upper st) ->
    Forall (avoids plane above) (lower st) ->
    let st' := fold_left (fun st facet => separate facet plane st) facets st in
    Forall (avoids plane below) (upper st') /\
    Forall (avoids plane above) (lower st').
Proof.
  induction facets as [|f fs IH]; intros st Hu Hl; simpl; [split; assumption|].
  destruct (separate_appends plane f st) as (Eu & El & _).
  destruct (separate_sides plane f) as [Su Sl].
  apply IH.
  - rewrite Eu; apply Forall_app; split; [exact Hu|].
    apply Forall_forall; exact Su.
  - rewrite El; apply Forall_app; split; [exact Hl|].
    apply Forall_forall; exact Sl.
Qed.

(** X24: the halves are on their sides, in exact arithmetic (the
    rounding of the cut points to [float] left aside).  After the pass
    over any mesh,
    no facet of the upper half has a vertex below the plane and no facet
    of the lower half has a vertex above it: the parts of the facets
    that were cut reach the plane and do not cross it. *)
Theorem separate_all_sides (facets : list stl_facet) (plane : stl_plane) :
  (forall g j, In g (upper (separate_all facets plane)) ->
     position plane (vertex g j) <> below) /\
  (forall g j, In g (lower (separate_all facets plane)) ->
     position plane (vertex g j) <> above).
Proof.
  destruct (separate_fold_sides plane facets empty_state) as [Hu Hl];
    [constructor | constructor |].
  fold (separate_all facets plane) in Hu, Hl.
  rewrite Forall_forall in Hu, Hl.
  split; intros g j Hin; [apply (Hu g Hin) | apply (Hl g Hin)].
Qed.

Lemma vadd_0_r (u : stl_vector) : vadd u (mk_vertex 0 0 0) = u.
Proof. destruct u; unfold vadd; simpl; f_equal; ring. Qed.

Lemma vadd_assoc (u v w : stl_vector) : vadd u (vadd v w) = vadd (vadd u v) w.
Proof. unfold vadd; simpl; f_equal; ring. Qed.

Lemma vadd_comm (u v : stl_vector) : vadd u v = vadd v u.
Proof. unfold vadd; f_equal; ring. Qed.

Lemma sum_area_app (l m : list stl_facet) :
  sum_area (l ++ m) = vadd (sum_area l) (sum_area m).
Proof.
  induction l as [|f l IH]; simpl.
  - unfold vadd; destruct (sum_area m); simpl; f_equal; ring.
  - rewrite IH, vadd_assoc; reflexivity.
Qed.

Lemma separate_area_step (plane : stl_plane) (f : stl_facet) (st : cut_state) :
  off_plane plane f ->
  vadd (sum_area (upper (separate f plane st)))
       (sum_area (lower (separate f plane st)))
  = vadd (vadd (sum_area (upper st)) (sum_area (lower st))) (area_vector f).
Proof.
  intros Hoff.
  destruct (separate_appends plane f st) as (Eu & El & _).
  pose proof (separate_area_parts plane f Hoff) as Harea.
  rewrite sum_area_app in Harea.
  rewrite Eu, El, !sum_area_app, <- Harea.
  set (a := sum_area (upper st)); set (b := sum_area (lower st)).
  set (c := sum_area (upper (separate f plane empty_state))).
  set (d := sum_area (lower (separate f plane empty_state))).
  unfold vadd; simpl; f_equal; ring.
Qed.

Lemma separate_fold_area (plane : stl_plane) (facets : list stl_facet) :
  Forall (off_plane plane) facets ->
  forall st,
    let st' := fold_left (fun st facet => separate facet plane st) facets st in
    vadd (sum_area (upper st')) (sum_area (lower st'))
    = vadd (vadd (sum_area (upper st)) (sum_area (lower st))) (sum_area facets).
Proof.
  induction 1 as [|f fs Hf Hfs IH]; intros st; simpl.
  - rewrite vadd_0_r; reflexivity.
  - rewrite IH, separate_area_step by assumption.
    rewrite <- !vadd_assoc; reflexivity.
Qed.

(** X25: the halves cover the mesh, in exact arithmetic (the rounding
    of the cut points to [float] left aside).  When no facet of the mesh lies
    with its three vertices on the plane, the area vectors of the facets
    of the two halves after the pass sum to the sum of the area vectors
    of the facets of the mesh. *)
Theorem separate_all_area (facets : list stl_facet) (plane : stl_plane) :
  (forall f, In f facets -> exists i, (i < 3)%nat /\ pos plane f i <> on) ->
  sum_area (upper (separate_all facets plane)
            ++ lower (separate_all facets plane))
  = sum_area facets.
Proof.
  intros Hall; rewrite sum_area_app; unfold separate_all.
  rewrite separate_fold_area by (apply Forall_forall; exact Hall).
  simpl; unfold vadd; destruct (sum_area facets); simpl; f_equal; ring.
Qed.

Lemma separate_all_area_witness :
  sum_area (upper (separate_all [facet_at 1 (-1) (-1); facet_at 1 2 0] main_plane)
            ++ lower (separate_all [facet_at 1 (-1) (-1); facet_at 1 2 0] main_plane))
  = sum_area [facet_at 1 (-1) (-1); facet_at 1 2 0].
Proof.
  apply separate_all_area.
  intros f [<-|[<-|[]]]; exists 0%nat; (split; [lia|]); unfold pos;
    rewrite main_plane_above by (simpl; lra); discriminate.
Defined.
